(** * Cookie refresh script ([scripts/refresh-cookies.js]): a shallow embedding

    The development follows the script top-down:
    - [Js]: the JavaScript values that [JSON.parse] yields, truthiness,
      property access, and the string helpers the script calls;
    - [Pool]: [loadAccountsConfig] (credential pool);
    - [Cookies]: [validateCookies] and [convertCookies];
    - [Store]: the project directory as a finite map and [saveCookies];
    - [Driver]: the exits of [attemptLogin];
    - [Controller]: the retry / failover loops of [refreshCookies].

    Numbers: JSON numbers and timestamps are integers ([Z]); a cookie's
    expiry is a rational ([Q]) because the browser reports fractional
    seconds.  Strings are compared byte-wise, which coincides with
    JavaScript's code-unit order on ASCII file names. *)

From stdpp Require Import gmap strings list sorting fin_maps.
From Stdlib Require Import ZArith QArith Qround Ascii.

#[local] Set Warnings "-register-all".
Close Scope Q_scope.
Open Scope string_scope.
Open Scope Z_scope.

(** ** JavaScript values *)

Module Js.

(** What [JSON.parse] can return, plus [undefined], which property access
    on a missing key produces.  An object keeps its members in source
    order; a key given twice takes its last value, as [JSON.parse] does.
    Numbers are the integers. *)
Inductive Value : Type :=
| VUndefined
| JNull
| JBool (b : bool)
| JNum (n : Z)
| JStr (s : string)
| JArr (items : list Value)
| JObj (members : list (string * Value)).

(** A computation that may throw (the script's [try]/[catch]). *)
Inductive Completion (A : Type) : Type :=
| Normal (a : A)
| Thrown.
Arguments Normal {A} a.
Arguments Thrown {A}.

Definition bind {A B} (c : Completion A) (k : A -> Completion B) : Completion B :=
  match c with
  | Normal a => k a
  | Thrown => Thrown
  end.

(** [ToBoolean]. *)
Definition truthy (v : Value) : bool :=
  match v with
  | VUndefined | JNull => false
  | JBool b => b
  | JNum n => negb (Z.eqb n 0)
  | JStr s => negb (String.eqb s "")
  | JArr _ | JObj _ => true
  end.

(** [a || b]. *)
Definition or_else (a b : Value) : Value := if truthy a then a else b.

(** The value of key [k] among the members of an object: the last
    occurrence wins. *)
Fixpoint member (k : string) (members : list (string * Value)) : Value :=
  match members with
  | [] => VUndefined
  | (k', v) :: rest =>
      match member k rest with
      | VUndefined => if String.eqb k' k then v else VUndefined
      | later => later
      end
  end.

(** [v.k] for the keys the script reads ([accounts], [rotation], [enabled],
    [failover], [maxRetries]): a [TypeError] on [null] and [undefined],
    [undefined] on primitives and arrays, a member lookup on objects. *)
Definition prop (v : Value) (k : string) : Completion Value :=
  match v with
  | VUndefined | JNull => Thrown
  | JObj members => Normal (member k members)
  | JBool _ | JNum _ | JStr _ | JArr _ => Normal VUndefined
  end.

(** [v?.k]. *)
Definition opt_prop (v : Value) (k : string) : Value :=
  match prop v k with
  | Normal x => x
  | Thrown => VUndefined
  end.

(** [v.length === 0], for a truthy or falsy [v] that is not nullish. *)
Definition length_is_zero (v : Value) : bool :=
  match v with
  | JArr items => Nat.eqb (length items) 0
  | JStr s => Nat.eqb (String.length s) 0
  | JObj members => match member "length" members with JNum 0 => true | _ => false end
  | _ => false
  end.

(** [null] and [undefined]: the values whose properties cannot be read. *)
Definition nullish (v : Value) : bool :=
  match v with
  | VUndefined | JNull => true
  | _ => false
  end.

(** [x !== false]. *)
Definition not_strictly_false (v : Value) : bool :=
  match v with
  | JBool false => false
  | _ => true
  end.

(** [hay.includes(needle)] on strings. *)
Fixpoint includes (needle hay : string) : bool :=
  String.prefix needle hay ||
  match hay with
  | EmptyString => false
  | String _ rest => includes needle rest
  end.

(** [s.startsWith(p)]. *)
Definition startsWith (s p : string) : bool := String.prefix p s.

(** [names.includes(x)] on an array of strings. *)
Definition array_includes (names : list string) (x : string) : bool :=
  existsb (String.eqb x) names.

End Js.

Import Js.

(** ** Credential pool: [loadAccountsConfig] (lines 84-114) *)

Module Pool.

(** What the script finds at [CONFIG_PATH]. *)
Inductive ConfigFile : Type :=
| Missing                    (* [fs.existsSync] is false *)
| Malformed                  (* [fs.readFileSync] or [JSON.parse] throws *)
| Parsed (config : Value).

(** The two fields [refreshCookies] takes out of the loaded
    configuration (line 568). *)
Record Config : Type := {
  accounts : list Value;
  rotation : Value;
}.

(** [acc => acc.enabled !== false] *)
Definition enabled (acc : Value) : Completion bool :=
  bind (prop acc "enabled") (fun e => Normal (not_strictly_false e)).

(** [items.filter(acc => acc.enabled !== false)]: the callback runs on the
    items in order and the first exception ends the call. *)
Fixpoint filter_enabled (items : list Value) : Completion (list Value) :=
  match items with
  | [] => Normal []
  | acc :: rest =>
      bind (enabled acc) (fun keep =>
      bind (filter_enabled rest) (fun kept =>
      Normal (if keep then acc :: kept else kept)))
  end.

(** [config.accounts.filter(...)]: only arrays have [filter]. *)
Definition filter_accounts (accs : Value) : Completion (list Value) :=
  match accs with
  | JArr items => filter_enabled items
  | _ => Thrown
  end.

(** The body of the [try] block once the file has been parsed. *)
Definition load_parsed (config : Value) : Completion (option Config) :=
  bind (prop config "accounts") (fun accs =>
  if negb (truthy accs) || length_is_zero accs then Normal None
  else
    bind (filter_accounts accs) (fun kept =>
    if Nat.eqb (length kept) 0 then Normal None
    else Normal (Some {| accounts := kept; rotation := opt_prop config "rotation" |}))).

(** [loadAccountsConfig()]: [None] is the script's [null]. *)
Definition loadAccountsConfig (file : ConfigFile) : option Config :=
  match file with
  | Missing => None
  | Malformed => None
  | Parsed config =>
      match load_parsed config with
      | Normal r => r
      | Thrown => None          (* [catch (error)]: log, [return null] *)
      end
  end.

(** The configuration record as section 6 of the specification words it:
    an object with an [accounts] array and a [rotation] object holding
    [strategy], a boolean [failover] and a numeric [maxRetries]. *)
Definition spec_record_shape (config : Value) : bool :=
  match config with
  | JObj members =>
      match member "accounts" members, member "rotation" members with
      | JArr _, JObj r =>
          match member "strategy" r, member "failover" r, member "maxRetries" r with
          | JStr _, JBool _, JNum _ => true
          | _, _, _ => false
          end
      | _, _ => false
      end
  | _ => false
  end.

(** The callback of the filter on a value whose properties can be read. *)
Definition keeps (acc : Value) : bool := not_strictly_false (opt_prop acc "enabled").

(** What the code requires of the file for the load to go through. *)
Definition loadable (file : ConfigFile) : Prop :=
  exists members items,
    file = Parsed (JObj members) /\
    member "accounts" members = JArr items /\
    (forall acc, acc ∈ items -> nullish acc = false) /\
    exists acc, acc ∈ items /\ opt_prop acc "enabled" <> JBool false.

End Pool.

Import Pool.

(** ** Session validator and normalisation (lines 37, 141-179) *)

(** A cookie as the browser hands it over ([page.cookies(...)]).  The fields
    that [convertCookies] defends with [||] may be absent. *)
Module Puppeteer.

Record Cookie : Type := {
  name : string;
  value : string;
  domain : string;
  path : option string;
  expires : option Q;
  httpOnly : option bool;
  secure : option bool;
  session : option bool;
  sameSite : option string;
}.

End Puppeteer.

(** The record written to [cookies.json], read by yt-dlp. *)
Module YtDlp.

Record Cookie : Type := {
  domain : string;
  expirationDate : Q;
  hostOnly : bool;
  httpOnly : bool;
  name : string;
  path : string;
  sameSite : string;
  secure : bool;
  session : bool;
  storeId : string;
  value : string;
}.

End YtDlp.

Module Cookies.

Definition ESSENTIAL_COOKIES : list string :=
  ["SID"; "HSID"; "SSID"; "APISID"; "SAPISID"; "LOGIN_INFO"].

(** [!s] on a string. *)
Definition is_empty (s : string) : bool := String.eqb s "".

(** [validateCookies(cookies)] (lines 141-158), logging left out. *)
Definition validateCookies (cookies : list Puppeteer.Cookie) : bool :=
  let cookieNames := map Puppeteer.name cookies in
  let missingCookies :=
    List.filter (fun name => negb (array_includes cookieNames name)) ESSENTIAL_COOKIES in
  if Nat.ltb 0 (length missingCookies) then false
  else
    let emptyCookies :=
      List.filter (fun c => array_includes ESSENTIAL_COOKIES (Puppeteer.name c)
                            && is_empty (Puppeteer.value c)) cookies in
    if Nat.ltb 0 (length emptyCookies) then false
    else true.

(** The two reasons for which the validator says no. *)
Definition missing_name (cookies : list Puppeteer.Cookie) : Prop :=
  exists name, name ∈ ESSENTIAL_COOKIES /\ name ∉ map Puppeteer.name cookies.

Definition empty_essential (cookies : list Puppeteer.Cookie) : Prop :=
  exists c, c ∈ cookies /\ Puppeteer.name c ∈ ESSENTIAL_COOKIES /\ Puppeteer.value c = "".

(** [b || false] *)
Definition bool_or_false (b : option bool) : bool := default false b.

(** [s || d] on an optional string: the empty string is falsy too. *)
Definition string_or (s : option string) (d : string) : string :=
  match s with
  | Some x => if is_empty x then d else x
  | None => d
  end.

(** [cookie.expires > 0]; an absent expiry compares false. *)
Definition expires_positive (cookie : Puppeteer.Cookie) : bool :=
  match Puppeteer.expires cookie with
  | Some e => negb (Qle_bool e 0)
  | None => false
  end.

(** [Math.floor(Date.now() / 1000) + 86400 * 365] *)
Definition default_expiry (now : Z) : Q := inject_Z (now / 1000 + 86400 * 365).

(** The callback of [convertCookies] (lines 166-178); [now] is what
    [Date.now()] returns while this record is converted. *)
Definition convertCookie (now : Z) (cookie : Puppeteer.Cookie) : YtDlp.Cookie :=
  {| YtDlp.domain := Puppeteer.domain cookie;
     YtDlp.expirationDate :=
       if expires_positive cookie then default 0%Q (Puppeteer.expires cookie)
       else default_expiry now;
     YtDlp.hostOnly := negb (startsWith (Puppeteer.domain cookie) ".");
     YtDlp.httpOnly := bool_or_false (Puppeteer.httpOnly cookie);
     YtDlp.name := Puppeteer.name cookie;
     YtDlp.path := string_or (Puppeteer.path cookie) "/";
     YtDlp.sameSite := string_or (Puppeteer.sameSite cookie) "unspecified";
     YtDlp.secure := bool_or_false (Puppeteer.secure cookie);
     YtDlp.session := bool_or_false (Puppeteer.session cookie);
     YtDlp.storeId := "0";
     YtDlp.value := Puppeteer.value cookie |}.

(** Two converted records that agree on every field but [expirationDate]. *)
Definition same_but_expiration (a b : YtDlp.Cookie) : Prop :=
  YtDlp.domain a = YtDlp.domain b /\ YtDlp.hostOnly a = YtDlp.hostOnly b /\
  YtDlp.httpOnly a = YtDlp.httpOnly b /\ YtDlp.name a = YtDlp.name b /\
  YtDlp.path a = YtDlp.path b /\ YtDlp.sameSite a = YtDlp.sameSite b /\
  YtDlp.secure a = YtDlp.secure b /\ YtDlp.session a = YtDlp.session b /\
  YtDlp.storeId a = YtDlp.storeId b /\ YtDlp.value a = YtDlp.value b.

(** [convertCookies(puppeteerCookies)]: [clock i] is the reading of
    [Date.now()] while the [i]-th record is converted. *)
Definition convertCookies (clock : nat -> Z) (puppeteerCookies : list Puppeteer.Cookie)
  : list YtDlp.Cookie :=
  imap (fun i cookie => convertCookie (clock i) cookie) puppeteerCookies.

End Cookies.

Import Cookies.

(** ** Session store: the project directory and [saveCookies] (lines 185-214) *)

Module Store.

(** The files of [ROOT_DIR] as a finite map from file names to contents.
    The names are relative to [ROOT_DIR], which is taken not to contain
    [.json] itself, so that the [replace] of line 189 acts on the file name.
    The log file and the screenshots live in sub-directories and are written
    by [log] and [takeScreenshot] only; they are left out. *)
Abbreviation Dir := (gmap string string).

Definition COOKIES_OUTPUT_PATH : string := "cookies.json".

(** One decimal digit. *)
Definition digit (d : Z) : ascii :=
  ascii_of_nat (48 + Z.to_nat d).

(** The digits of [n >= 0], most significant first, in front of [acc]. *)
Fixpoint digits (fuel : nat) (n : Z) (acc : string) : string :=
  match fuel with
  | O => acc
  | S fuel' =>
      let acc' := String (digit (n mod 10)) acc in
      if n <? 10 then acc' else digits fuel' (n / 10) acc'
  end.

(** The text of an integer inside a template literal. *)
Definition decimal (n : Z) : string :=
  if n <? 0 then "-" +:+ digits (S (Z.to_nat (Z.log2 (- n)))) (- n) ""
  else digits (S (Z.to_nat (Z.log2 n))) n "".

(** Reading a decimal text back: the value of a character as a digit, the
    number a text stands for, and the texts made of digits only. *)
Definition digit_value (c : ascii) : Z := Z.of_N (N_of_ascii c) - 48.

Fixpoint number_of (s : string) : Z :=
  match s with
  | EmptyString => 0
  | String c rest => digit_value c * 10 ^ Z.of_nat (String.length rest) + number_of rest
  end.

Fixpoint all_digits (s : string) : Prop :=
  match s with
  | EmptyString => True
  | String c rest => 0 <= digit_value c <= 9 /\ all_digits rest
  end.

(** [s.replace(pattern, replacement)] with a string pattern: the first
    occurrence only. *)
Fixpoint replace (s pattern replacement : string) : string :=
  if String.prefix pattern s
  then replacement +:+ String.substring (String.length pattern)
                                        (String.length s - String.length pattern) s
  else match s with
       | EmptyString => EmptyString
       | String c rest => String c (replace rest pattern replacement)
       end.

(** [COOKIES_OUTPUT_PATH.replace('.json', `.backup_${Date.now()}.json`)] *)
Definition backupPath (now : Z) : string :=
  replace COOKIES_OUTPUT_PATH ".json" (".backup_" +:+ decimal now +:+ ".json").

(** The file-system calls of [saveCookies].  [fs.writeFileSync] opens its
    target with flag [w], which truncates it, and then writes the data; the
    two steps are kept apart.  [Rename] is what a write through a temporary
    file would end with; [saveCookies] never issues it. *)
Inductive FsOp : Type :=
| CopyFile (src dst : string)
| Unlink (file : string)
| OpenTruncate (file : string)
| WriteData (file data : string)
| Rename (src dst : string).

Definition apply_op (dir : Dir) (op : FsOp) : Dir :=
  match op with
  | CopyFile src dst =>
      match dir !! src with
      | Some content => <[dst := content]> dir
      | None => dir
      end
  | Unlink file => delete file dir
  | OpenTruncate file => <[file := ""]> dir
  | WriteData file data => <[file := data]> dir
  | Rename src dst =>
      match dir !! src with
      | Some content => <[dst := content]> (delete src dir)
      | None => dir
      end
  end.

(** [fs.existsSync], [fs.readdirSync] *)
Definition existsSync (dir : Dir) (file : string) : bool := bool_decide (is_Some (dir !! file)).
Definition readdirSync (dir : Dir) : list string := (map_to_list dir).*1.

(** [fs.writeFileSync(file, data)] *)
Definition writeFileSync (file data : string) : list FsOp :=
  [OpenTruncate file; WriteData file data].

(** The listing of lines 194-197: the names that start with
    [cookies.backup_], sorted as strings, greatest first. *)
Definition backup_names (dir : Dir) : list string :=
  reverse (merge_sort String.le
             (filter (fun f => startsWith f "cookies.backup_" = true) (readdirSync dir))).

(** The backups to delete (lines 199-203), read off the directory as it is
    after the copy. *)
Definition stale_backups (dir : Dir) : list string :=
  let backups := backup_names dir in
  if Nat.ltb 5 (length backups) then drop 5 backups else [].

Section SaveCookies.

(** [JSON.stringify(cookies, null, 2)] *)
Variable JSON_stringify : list YtDlp.Cookie -> string.

(** The calls [saveCookies(cookies)] makes, in order, when none of them
    fails; [now] is the reading of [Date.now()] on line 189. *)
Definition saveCookies_ops (now : Z) (cookies : list YtDlp.Cookie) (dir : Dir) : list FsOp :=
  (if existsSync dir COOKIES_OUTPUT_PATH then
     let copy := CopyFile COOKIES_OUTPUT_PATH (backupPath now) in
     copy :: map Unlink (stale_backups (apply_op dir copy))
   else [])
  ++ writeFileSync COOKIES_OUTPUT_PATH (JSON_stringify cookies).

(** The directory after each call, and after the last one. *)
Definition run_ops (dir : Dir) (ops : list FsOp) : Dir := foldl apply_op dir ops.

Fixpoint snapshots (dir : Dir) (ops : list FsOp) : list Dir :=
  match ops with
  | [] => []
  | op :: rest => apply_op dir op :: snapshots (apply_op dir op) rest
  end.

Definition saveCookies (now : Z) (cookies : list YtDlp.Cookie) (dir : Dir) : Dir :=
  run_ops dir (saveCookies_ops now cookies dir).

(** Successive runs that each persist: [(now, cookies)] per run. *)
Definition persist_all (dir : Dir) (runs : list (Z * list YtDlp.Cookie)) : Dir :=
  foldl (fun d r => saveCookies r.1 r.2 d) dir runs.

End SaveCookies.

(** The backups of a directory with their contents, in the order of that
    listing. *)
Definition backups (dir : Dir) : list (string * string) :=
  map (fun f => (f, default "" (dir !! f))) (backup_names dir).

(** The session file as readers may see it while [ops] run: after every
    call it holds what it held before the calls, or [data] in full. *)
Definition never_partial (dir : Dir) (ops : list FsOp) (data : string) : Prop :=
  forall d, d ∈ snapshots dir ops ->
            d !! COOKIES_OUTPUT_PATH = dir !! COOKIES_OUTPUT_PATH \/
            d !! COOKIES_OUTPUT_PATH = Some data.

Definition is_rename (op : FsOp) : bool :=
  match op with
  | Rename _ _ => true
  | _ => false
  end.

(** A time stamp that is not negative and is written with [width] digits. *)
Definition same_width (width : nat) (t : Z) : Prop :=
  0 <= t /\ String.length (decimal t) = width.

(** [stores width dir current bs]: the directory holds the session file
    with content [current] and, as files named [cookies.backup_...], exactly
    the backups [bs] (time stamp and content, latest first), whose time
    stamps are non-negative and are written with [width] digits. *)
Definition stores (width : nat) (dir : Dir) (current : string) (bs : list (Z * string))
  : Prop :=
  dir !! COOKIES_OUTPUT_PATH = Some current /\
  StronglySorted Z.gt bs.*1 /\
  Forall (same_width width) bs.*1 /\
  forall f c, startsWith f "cookies.backup_" = true ->
              (dir !! f = Some c <-> exists t, (t, c) ∈ bs /\ f = backupPath t).

End Store.

Import Store.

(** ** Login driver: the exits of [attemptLogin] (lines 223-552) *)

Module Driver.

(** What the browser shows during one call of [attemptLogin], by the place
    where the call leaves its [try] block.  The calls outside that block
    ([browser.newPage()], [page.close()]) are taken to succeed. *)
Inductive Observation : Type :=
| Throws
    (* an awaited browser call throws (navigation or selector timeout,
       ...): caught on line 545 *)
| NoPasswordField (pageContent : string)
    (* the wait of line 413 fails; [pageContent] is read on line 419 *)
| Submitted (pageContentAfterLogin : string) (loggedIn : bool)
            (cookies : list Puppeteer.Cookie) (clock : nat -> Z).
    (* the password was submitted; page text of line 476, probe of line
       501, cookies of line 516, clock readings of line 543 *)

(** The filter of lines 527-531. *)
Definition relevant (c : Puppeteer.Cookie) : bool :=
  includes "youtube.com" (Puppeteer.domain c)
  || includes "google.com" (Puppeteer.domain c)
  || includes ".google." (Puppeteer.domain c).

(** The value [attemptLogin] returns when it returns: [None] is [null].
    Every branch that only differs by its log line is kept.  The screenshot
    names read [account.email.split('@')[0]], which throws when [email] is
    not a string; [Diagnostics.attemptLogin_exit] below is the call with
    that exception, and this function is its result whenever the call
    returns. *)
Definition attemptLogin (obs : Observation) : option (list YtDlp.Cookie) :=
  match obs with
  | Throws => None
  | NoPasswordField pageContent =>
      if includes "captcha-container" pageContent
         || includes "g-recaptcha" pageContent
         || includes "unusual activity" pageContent
      then None                                   (* "CAPTCHA detected" *)
      else if includes "Couldn't find" pageContent
              || includes "couldn't find" pageContent
              || includes "account doesn" pageContent
      then None                                   (* "Account not found" *)
      else if includes "verify your identity" pageContent
              || includes "Verify it" pageContent
      then None                                   (* "verification required" *)
      else None
  | Submitted pageContentAfterLogin loggedIn cookies clock =>
      if includes "2-Step Verification" pageContentAfterLogin
         || includes "Verify it" pageContentAfterLogin
         || includes "confirm your identity" pageContentAfterLogin
      then None
      else if includes "Wrong password" pageContentAfterLogin
              || includes "incorrect" pageContentAfterLogin
      then None
      else
        let filteredCookies := List.filter relevant cookies in
        if negb (validateCookies filteredCookies) then None
        else Some (convertCookies clock filteredCookies)
  end.

(** The outcome classes of the specification (sections 3, 4.2, 7). *)
Inductive Reason : Type :=
| Detection | CredentialError | VerificationRequired
| Timeout | NoCookies | Unknown | ValidationFailed.

Inductive AttemptOutcome : Type :=
| Success (cookies : list YtDlp.Cookie)
| RetryableFailure (reason : Reason)
| TerminalFailure (reason : Reason).

(** The class the specification gives to an observation, following its
    words (section 4.2, steps 6, 7 and 10; section 4.5 for a validator
    rejection) on the page tests of the code. *)
Definition spec_outcome (obs : Observation) : AttemptOutcome :=
  match obs with
  | Throws => RetryableFailure Timeout
  | NoPasswordField pageContent =>
      if includes "captcha-container" pageContent
         || includes "g-recaptcha" pageContent
         || includes "unusual activity" pageContent
      then TerminalFailure Detection
      else if includes "Couldn't find" pageContent
              || includes "couldn't find" pageContent
              || includes "account doesn" pageContent
      then TerminalFailure CredentialError
      else if includes "verify your identity" pageContent
              || includes "Verify it" pageContent
      then TerminalFailure VerificationRequired
      else RetryableFailure Unknown
  | Submitted pageContentAfterLogin loggedIn cookies clock =>
      if includes "2-Step Verification" pageContentAfterLogin
         || includes "Verify it" pageContentAfterLogin
         || includes "confirm your identity" pageContentAfterLogin
      then TerminalFailure VerificationRequired
      else if includes "Wrong password" pageContentAfterLogin
              || includes "incorrect" pageContentAfterLogin
      then TerminalFailure CredentialError
      else
        let filteredCookies := List.filter relevant cookies in
        if Nat.eqb (length filteredCookies) 0 then RetryableFailure NoCookies
        else if negb (validateCookies filteredCookies) then RetryableFailure ValidationFailed
        else Success (convertCookies clock filteredCookies)
  end.

Definition is_terminal (o : AttemptOutcome) : bool :=
  match o with
  | TerminalFailure _ => true
  | _ => false
  end.

End Driver.

Import Driver.

(** ** Retry / failover controller: [refreshCookies] (lines 557-656) *)

Module Controller.

(** One call [attemptLogin(browser, account, attempt)] of line 609, with
    the loop index [i] and what the browser showed. *)
Record Login : Type := {
  index : nat;
  account : Value;
  number : Z;
  seen : Observation;
}.

(** What a run does, in order. *)
Inductive Event : Type :=
| Attempt (a : Login)                                   (* line 609 *)
| Backoff (i : nat) (attempt : Z)                       (* lines 617-621 *)
| RotationLogged (i : nat).                             (* lines 628-630 *)

(** [rotation?.maxRetries || 3] *)
Definition maxRetriesPerAccount (rotation : Value) : Value :=
  or_else (opt_prop rotation "maxRetries") (JNum 3).

(** The number that [attempt <= maxRetriesPerAccount] compares with, for
    the values that need no parsing: the value itself when it is a number, 1
    for [true].  Any other truthy value (a non-empty string, an array, an
    object) gets no attempt here, as a value that converts to [NaN] does:
    the conversion of numeric strings and of arrays to numbers is not
    modelled, and [Process.refreshCookies_process] below takes it as a
    parameter instead. *)
Definition budget (maxRetries : Value) : Z :=
  match maxRetries with
  | JNum n => n
  | JBool true => 1
  | _ => 0
  end.

(** The values [attempt] takes in
    [for (attempt = 1; attempt <= maxRetries; attempt++)]. *)
Definition attempt_numbers (maxRetries : Z) : list Z :=
  map Z.of_nat (seq 1 (Z.to_nat maxRetries)).

(** [cookies && cookies.length > 0] *)
Definition accepted (cookies : option (list YtDlp.Cookie)) : bool :=
  match cookies with
  | Some l => Nat.ltb 0 (length l)
  | None => false
  end.

(** [rotation?.failover !== false] *)
Definition failover (rotation : Value) : bool :=
  not_strictly_false (opt_prop rotation "failover").

Inductive Outcome : Type :=
| ConfigInvalid
| Succeeded (successAccount : Value) (successfulCookies : list YtDlp.Cookie)
| Exhausted.

Record Run : Type := {
  outcome : Outcome;
  exitCode : Z;
  events : list Event;
  disk : Dir;
}.

Section Run.

(** The remote side: [browse account attempt w] is what the browser shows
    during [attemptLogin(browser, account, attempt)] started in state [w],
    and the state afterwards. *)
Context {World : Type}.
Variable browse : Value -> Z -> World -> Observation * World.
(** [Date.now()] when [saveCookies] runs. *)
Variable now : World -> Z.
Variable JSON_stringify : list YtDlp.Cookie -> string.

(** The inner loop (lines 606-622) over the remaining values of [attempt],
    for calls of [attemptLogin] that return. *)
Fixpoint try_account (i : nat) (acc : Value) (maxRetries : Z)
    (attempts : list Z) (w : World)
  : list Event * option (list YtDlp.Cookie) * World :=
  match attempts with
  | [] => ([], None, w)
  | attempt :: later =>
      let '(obs, w1) := browse acc attempt w in
      let cookies := attemptLogin obs in
      let this := Attempt {| index := i; account := acc; number := attempt; seen := obs |} in
      if accepted cookies then ([this], cookies, w1)                    (* break *)
      else
        let pause := if attempt <? maxRetries then [Backoff i attempt] else [] in
        let '(evs, found, w2) := try_account i acc maxRetries later w1 in
        ((this :: pause ++ evs)%list, found, w2)
  end.

(** The outer loop (lines 601-631) from index [i] on; [total] is
    [accounts.length]. *)
Fixpoint try_accounts (i total : nat) (rotation : Value) (maxRetries : Z)
    (remaining : list Value) (w : World)
  : list Event * option (Value * list YtDlp.Cookie) * World :=
  match remaining with
  | [] => ([], None, w)
  | acc :: rest =>
      let '(evs, found, w1) :=
        try_account i acc maxRetries (attempt_numbers maxRetries) w in
      match found with
      | Some cookies => (evs, Some (acc, cookies), w1)                  (* break *)
      | None =>
          let rotate :=
            if (Z.of_nat i <? Z.of_nat total - 1) && failover rotation
            then [RotationLogged i] else [] in
          let '(evs', result, w2) := try_accounts (S i) total rotation maxRetries rest w1 in
          ((evs ++ rotate ++ evs')%list, result, w2)
      end
  end.

(** [refreshCookies()] on the configuration file [file], the project
    directory [dir] and the remote state [w], when every call of
    [attemptLogin] returns (as it does for accounts whose [email] is a
    string) and [maxRetries] is absent, a number or a boolean.  The browser
    is taken to launch, and the file-system calls of [saveCookies] to
    succeed.  [Abort.refreshCookies_exit] adds the exceptions and
    [Process.refreshCookies_process] the conversion of [maxRetries]. *)
Definition refreshCookies (file : ConfigFile) (dir : Dir) (w : World) : Run :=
  match loadAccountsConfig file with
  | None =>
      {| outcome := ConfigInvalid; exitCode := 1; events := []; disk := dir |}
  | Some config =>
      let maxRetries := budget (maxRetriesPerAccount (rotation config)) in
      let '(evs, result, w1) :=
        try_accounts 0 (length (accounts config)) (rotation config) maxRetries
                     (accounts config) w in
      match result with
      | Some (successAccount, successfulCookies) =>
          {| outcome := Succeeded successAccount successfulCookies;
             exitCode := 0;
             events := evs;
             disk := saveCookies JSON_stringify (now w1) successfulCookies dir |}
      | None =>
          {| outcome := Exhausted; exitCode := 1; events := evs; disk := dir |}
      end
  end.

End Run.

(** The login attempts of a run, in order. *)
Definition attempts (evs : list Event) : list Login :=
  omap (fun e => match e with
                 | Attempt a => Some a
                 | _ => None
                 end) evs.

(** An attempt whose result the controller takes as a success. *)
Definition succeeded (a : Login) : bool :=
  accepted (attemptLogin (seen a)).

(** [a] comes before [b] in the order of the loops: a lower account index,
    or the same account and a lower attempt number. *)
Definition before (a b : Login) : Prop :=
  (index a < index b)%nat \/ (index a = index b /\ number a < number b).

(** The attempts of the inner loop on account [i], from attempt number [k]
    on, and what the loop leaves in [cookies]. *)
Inductive account_run (i : nat) (acc : Value) (maxRetries : Z)
  : Z -> list Login -> option (list YtDlp.Cookie) -> Prop :=
| ar_spent k :
    maxRetries < k ->
    account_run i acc maxRetries k [] None
| ar_hit k obs cookies :
    k <= maxRetries ->
    attemptLogin obs = Some cookies ->
    accepted (Some cookies) = true ->
    account_run i acc maxRetries k
      [{| index := i; account := acc; number := k; seen := obs |}] (Some cookies)
| ar_miss k obs later found :
    k <= maxRetries ->
    accepted (attemptLogin obs) = false ->
    account_run i acc maxRetries (k + 1) later found ->
    account_run i acc maxRetries k
      ({| index := i; account := acc; number := k; seen := obs |} :: later) found.

(** The attempts of the outer loop from index [i] on. *)
Inductive pool_run (maxRetries : Z)
  : nat -> list Value -> list Login -> option (Value * list YtDlp.Cookie) -> Prop :=
| pr_end i :
    pool_run maxRetries i [] [] None
| pr_hit i acc rest tries cookies :
    account_run i acc maxRetries 1 tries (Some cookies) ->
    pool_run maxRetries i (acc :: rest) tries (Some (acc, cookies))
| pr_next i acc rest tries later result :
    account_run i acc maxRetries 1 tries None ->
    pool_run maxRetries (S i) rest later result ->
    pool_run maxRetries i (acc :: rest) (tries ++ later) result.

End Controller.

Import Controller.

(** ** Concrete inputs used in the examples below *)

Module Scenarios.

Definition login_of (email : string) : Value :=
  JObj [("email", JStr email); ("password", JStr "hunter2")].

(** A configuration file without a [rotation] block. *)
Definition no_rotation_config : Value :=
  JObj [("accounts", JArr [login_of "primary@gmail.com"])].

(** Four accounts: [enabled] absent, [true], [false], and the string
    ["false"]. *)
Definition mixed_accounts : list Value :=
  [ login_of "absent@gmail.com";
    JObj [("email", JStr "on@gmail.com"); ("enabled", JBool true)];
    JObj [("email", JStr "off@gmail.com"); ("enabled", JBool false)];
    JObj [("email", JStr "text@gmail.com"); ("enabled", JStr "false")] ].

Definition rotation_block (failover maxRetries : Value) : Value :=
  JObj [("strategy", JStr "sequential"); ("failover", failover); ("maxRetries", maxRetries)].

Definition mixed_config : Value :=
  JObj [("accounts", JArr mixed_accounts);
        ("rotation", rotation_block (JBool true) (JNum 3))].

Definition mixed_loaded : Config :=
  {| accounts :=
       [ login_of "absent@gmail.com";
         JObj [("email", JStr "on@gmail.com"); ("enabled", JBool true)];
         JObj [("email", JStr "text@gmail.com"); ("enabled", JStr "false")] ];
     rotation := rotation_block (JBool true) (JNum 3) |}.

(** A cookie as the browser reports it. *)
Definition browser_cookie (name value domain : string) (expires : Q) : Puppeteer.Cookie :=
  {| Puppeteer.name := name; Puppeteer.value := value; Puppeteer.domain := domain;
     Puppeteer.path := Some "/"; Puppeteer.expires := Some expires;
     Puppeteer.httpOnly := Some true; Puppeteer.secure := Some true;
     Puppeteer.session := Some (Qle_bool expires 0); Puppeteer.sameSite := None |}.

(** A session-only cookie: the browser reports [-1] as its expiry. *)
Definition session_cookie : Puppeteer.Cookie :=
  browser_cookie "SID" "g.a000" ".youtube.com" (-1 # 1).

(** The six essential cookies, each with a value, on [.youtube.com]. *)
Definition essential_set : list Puppeteer.Cookie :=
  map (fun name => browser_cookie name "g.a000" ".youtube.com" (1767225600 # 1))
      ESSENTIAL_COOKIES.

(** Pages the provider may answer with. *)
Definition captcha_page : Observation :=
  NoPasswordField "<div id='captcha-container'><div class='g-recaptcha'></div></div>".

Definition logged_in_page : Observation :=
  Submitted "<ytd-app></ytd-app>" true essential_set (fun _ => 1700000000000).

(** A remote side that always shows the same thing. *)
Definition always (obs : Observation) (account : Value) (attempt : Z) (w : unit)
  : Observation * unit := (obs, w).

(** A remote side that plays a script, one observation per attempt, and
    times out once the script is over. *)
Definition scripted (account : Value) (attempt : Z) (w : list Observation)
  : Observation * list Observation :=
  match w with
  | obs :: rest => (obs, rest)
  | [] => (Throws, [])
  end.

(** A stand-in for [JSON.stringify]. *)
Definition render (cookies : list YtDlp.Cookie) : string :=
  String.concat ";" (map (fun c => YtDlp.name c +:+ "=" +:+ YtDlp.value c) cookies).

Definition two_accounts (rotation : Value) : Value :=
  JObj [("accounts", JArr [login_of "primary@gmail.com"; login_of "backup@gmail.com"]);
        ("rotation", rotation)].

(** One account, no [rotation] block, a provider that always shows a
    CAPTCHA. *)
Definition captcha_run : Run :=
  refreshCookies (always captcha_page) (fun _ => 1700000000000) render
                 (Parsed no_rotation_config) {[ "cookies.json" := "[]" ]} tt.

(** Two accounts, [failover: false], one attempt each; the first account
    meets a CAPTCHA, the second logs in. *)
Definition failover_off_run : Run :=
  refreshCookies scripted (fun _ => 1700000000000) render
                 (Parsed (two_accounts (rotation_block (JBool false) (JNum 1))))
                 {[ "cookies.json" := "[]" ]} [captcha_page; logged_in_page].

(** Three accounts, two attempts each: the first account meets a CAPTCHA,
    the second times out, the third logs in. *)
Definition three_accounts_run : Run :=
  refreshCookies scripted (fun _ => 1700000000000) render
    (Parsed (JObj [("accounts", JArr [login_of "one@gmail.com"; login_of "two@gmail.com";
                                       login_of "three@gmail.com"]);
                   ("rotation", rotation_block (JBool true) (JNum 2))]))
    {[ "cookies.json" := "[]" ]}
    [captcha_page; captcha_page; Throws; Throws; logged_in_page].

(** The account index, attempt number and specification class of each
    login attempt. *)
Definition summary (r : Run) : list (nat * Z * bool) :=
  map (fun a => (index a, number a, is_terminal (spec_outcome (seen a))))
      (attempts (events r)).

(** A session made of one cookie with the given value, and its text. *)
Definition session (value : string) : list YtDlp.Cookie :=
  [convertCookie 0 (browser_cookie "SID" value ".youtube.com" (1767225600 # 1))].

Definition initial_dir : Dir := {[ "cookies.json" := render (session "v0") ]}.

(** Six daily runs, each saving a new session. *)
Definition daily_runs : list (Z * list YtDlp.Cookie) :=
  [ (1700000000000, session "v1"); (1700086400000, session "v2");
    (1700172800000, session "v3"); (1700259200000, session "v4");
    (1700345600000, session "v5"); (1700432000000, session "v6") ].

(** Six daily runs, the last one at the first time stamp of fourteen
    digits (20 November 2286). *)
Definition rollover_runs : list (Z * list YtDlp.Cookie) :=
  [ (9999568000000, session "v1"); (9999654400000, session "v2");
    (9999740800000, session "v3"); (9999827200000, session "v4");
    (9999913600000, session "v5"); (10000000000000, session "v6") ].

End Scenarios.

Import Scenarios.

(** ** The rest of the script: time stamps, diagnostics *)

Module Diagnostics.

(** [getTimestamp()] (lines 52-54) on the text [iso] that
    [new Date().toISOString()] returns. *)
Definition getTimestamp (iso : string) : string :=
  String.substring 0 19 (replace iso "T" " ").

(** [email.split('@')[0]]: the text before the first [@]. *)
Fixpoint before_at (s : string) : string :=
  match s with
  | EmptyString => EmptyString
  | String c rest => if Ascii.eqb c "@" then EmptyString else String c (before_at rest)
  end.

(** [account.email.split('@')[0]], the part of every screenshot name that
    comes from the account (lines 416, 481, 510, 538, 547): only a string
    has [split]. *)
Definition screenshot_tag (account : Value) : Completion string :=
  bind (prop account "email") (fun email =>
  match email with
  | JStr s => Normal (before_at s)
  | _ => Thrown
  end).

(** A screenshot taken inside the [try] block of [attemptLogin]: when its
    name cannot be computed, control goes to the [catch] of line 545, which
    computes the name of its own screenshot (line 547) outside any [try]. *)
Definition with_screenshot {A} (account : Value) (k : Completion A) : Completion A :=
  bind (screenshot_tag account) (fun _ => k).

(** [attemptLogin(browser, account, attempt)] with the exceptions that
    leave it: [Thrown] is an exception that reaches [refreshCookies]. *)
Definition attemptLogin_exit (account : Value) (obs : Observation)
  : Completion (option (list YtDlp.Cookie)) :=
  match obs with
  | Throws => with_screenshot account (Normal None)            (* lines 545-548 *)
  | NoPasswordField pageContent =>
      with_screenshot account (Normal None)                     (* lines 416-441 *)
  | Submitted pageContentAfterLogin loggedIn cookies clock =>
      if includes "2-Step Verification" pageContentAfterLogin
         || includes "Verify it" pageContentAfterLogin
         || includes "confirm your identity" pageContentAfterLogin
      then with_screenshot account (Normal None)                (* lines 480-482 *)
      else if includes "Wrong password" pageContentAfterLogin
              || includes "incorrect" pageContentAfterLogin
      then Normal None                                          (* lines 486-489 *)
      else
        bind (if loggedIn then Normal tt
              else with_screenshot account (Normal tt))         (* lines 508-513 *)
             (fun _ =>
        let filteredCookies := List.filter relevant cookies in
        if negb (validateCookies filteredCookies)
        then with_screenshot account (Normal None)              (* lines 536-540 *)
        else Normal (Some (convertCookies clock filteredCookies)))
  end.

(** The exits of [attemptLogin] on which a screenshot is asked for. *)
Definition takes_screenshot (obs : Observation) : bool :=
  match obs with
  | Throws => true
  | NoPasswordField _ => true
  | Submitted pageContentAfterLogin loggedIn cookies clock =>
      if includes "2-Step Verification" pageContentAfterLogin
         || includes "Verify it" pageContentAfterLogin
         || includes "confirm your identity" pageContentAfterLogin
      then true
      else if includes "Wrong password" pageContentAfterLogin
              || includes "incorrect" pageContentAfterLogin
      then false
      else negb loggedIn || negb (validateCookies (List.filter relevant cookies))
  end.

End Diagnostics.

Import Diagnostics.

(** ** The order of the login attempts *)

Module Schedule.



(** The pauses of a run (lines 617-621): account index and the attempt
    number after which the pause is made. *)
Definition backoffs (evs : list Event) : list (nat * Z) :=
  omap (fun e => match e with
                 | Backoff i attempt => Some (i, attempt)
                 | _ => None
                 end) evs.

End Schedule.

Import Schedule.

(** ** Exceptions that leave [attemptLogin] *)

Module Abort.

(** How the process ends: [refreshCookies] runs to its end (or calls
    [process.exit] itself), or an exception leaves it and the handler of
    lines 658-661 exits with status 1. *)
Inductive Ending : Type :=
| Returned (r : Run)
| Fatal (events : list Event) (disk : Dir).

Definition exit_status (e : Ending) : Z :=
  match e with
  | Returned r => exitCode r
  | Fatal _ _ => 1
  end.

Section Run.

Context {World : Type}.
Variable browse : Value -> Z -> World -> Observation * World.
Variable now : World -> Z.
Variable JSON_stringify : list YtDlp.Cookie -> string.

(** The inner loop (lines 606-622), where the call of line 609 may throw. *)
Fixpoint try_account_exit (i : nat) (acc : Value) (maxRetries : Z)
    (attempts : list Z) (w : World)
  : list Event * Completion (option (list YtDlp.Cookie)) * World :=
  match attempts with
  | [] => ([], Normal None, w)
  | attempt :: later =>
      let '(obs, w1) := browse acc attempt w in
      let this := Attempt {| index := i; account := acc; number := attempt; seen := obs |} in
      match attemptLogin_exit acc obs with
      | Thrown => ([this], Thrown, w1)
      | Normal cookies =>
          if accepted cookies then ([this], Normal cookies, w1)         (* break *)
          else
            let pause := if attempt <? maxRetries then [Backoff i attempt] else [] in
            let '(evs, found, w2) := try_account_exit i acc maxRetries later w1 in
            ((this :: pause ++ evs)%list, found, w2)
      end
  end.

(** The outer loop (lines 601-631). *)
Fixpoint try_accounts_exit (i total : nat) (rotation : Value) (maxRetries : Z)
    (remaining : list Value) (w : World)
  : list Event * Completion (option (Value * list YtDlp.Cookie)) * World :=
  match remaining with
  | [] => ([], Normal None, w)
  | acc :: rest =>
      let '(evs, found, w1) :=
        try_account_exit i acc maxRetries (attempt_numbers maxRetries) w in
      match found with
      | Thrown => (evs, Thrown, w1)
      | Normal (Some cookies) => (evs, Normal (Some (acc, cookies)), w1) (* break *)
      | Normal None =>
          let rotate :=
            if (Z.of_nat i <? Z.of_nat total - 1) && failover rotation
            then [RotationLogged i] else [] in
          let '(evs', result, w2) :=
            try_accounts_exit (S i) total rotation maxRetries rest w1 in
          ((evs ++ rotate ++ evs')%list, result, w2)
      end
  end.

(** The script from its last line: [refreshCookies().catch(...)]. *)
Definition refreshCookies_exit (file : ConfigFile) (dir : Dir) (w : World) : Ending :=
  match loadAccountsConfig file with
  | None =>
      Returned {| outcome := ConfigInvalid; exitCode := 1; events := []; disk := dir |}
  | Some config =>
      let maxRetries := budget (maxRetriesPerAccount (rotation config)) in
      let '(evs, result, w1) :=
        try_accounts_exit 0 (length (accounts config)) (rotation config) maxRetries
                          (accounts config) w in
      match result with
      | Thrown => Fatal evs dir
      | Normal (Some (successAccount, successfulCookies)) =>
          Returned {| outcome := Succeeded successAccount successfulCookies;
                      exitCode := 0;
                      events := evs;
                      disk := saveCookies JSON_stringify (now w1) successfulCookies dir |}
      | Normal None =>
          Returned {| outcome := Exhausted; exitCode := 1; events := evs; disk := dir |}
      end
  end.

End Run.

(** [typeof account.email === 'string'] *)
Definition string_email (account : Value) : Prop :=
  exists s, prop account "email" = Normal (JStr s).

End Abort.

Import Abort.

(** ** The process, for every value of [maxRetries] *)

Module Process.

(** The events of a process and the directory it leaves. *)
Definition trace (e : Ending) : list Event :=
  match e with
  | Returned r => events r
  | Fatal evs _ => evs
  end.


(** [attempt <= maxRetriesPerAccount] (line 606) and
    [attempt < maxRetriesPerAccount] (line 617), once the right-hand side
    is a number. *)
Definition within (attempt : Z) (maxRetries : Q) : bool :=
  Qle_bool (inject_Z attempt) maxRetries.

Definition below (attempt : Z) (maxRetries : Q) : bool :=
  negb (Qle_bool maxRetries (inject_Z attempt)).

(** The call of line 609 threw. *)
Definition thrown (a : Login) : bool :=
  match attemptLogin_exit (account a) (seen a) with
  | Thrown => true
  | Normal _ => false
  end.

(** The call of line 609 returned and the test of line 611 took its result
    as a success. *)
Definition taken (a : Login) : bool :=
  match attemptLogin_exit (account a) (seen a) with
  | Thrown => false
  | Normal cookies => accepted cookies
  end.

Section Run.

Context {World : Type}.
Variable browse : Value -> Z -> World -> Observation * World.
Variable now : World -> Z.
Variable JSON_stringify : list YtDlp.Cookie -> string.
(** The number to which the engine converts the value of
    [maxRetriesPerAccount] in the two comparisons: the value itself for a
    number, 1 for [true], what a string or an array reads as.  A value that
    converts to [NaN] makes both comparisons false, as the number 0 does
    for every [attempt >= 1], and is taken as 0.  A value that converts to
    [+Infinity] is not covered. *)
Variable ToNumber : Value -> Q.

(** The inner loop (lines 606-622). *)
Fixpoint try_account_process (i : nat) (acc : Value) (maxRetries : Q)
    (attempts : list Z) (w : World)
  : list Event * Completion (option (list YtDlp.Cookie)) * World :=
  match attempts with
  | [] => ([], Normal None, w)
  | attempt :: later =>
      let '(obs, w1) := browse acc attempt w in
      let this := Attempt {| index := i; account := acc; number := attempt; seen := obs |} in
      match attemptLogin_exit acc obs with
      | Thrown => ([this], Thrown, w1)
      | Normal cookies =>
          if accepted cookies then ([this], Normal cookies, w1)         (* break *)
          else
            let pause := if below attempt maxRetries then [Backoff i attempt] else [] in
            let '(evs, found, w2) := try_account_process i acc maxRetries later w1 in
            ((this :: pause ++ evs)%list, found, w2)
      end
  end.

(** The outer loop (lines 601-631).  The values of [attempt] for which
    [attempt <= maxRetries] holds are 1 to the integer part of
    [maxRetries]. *)
Fixpoint try_accounts_process (i total : nat) (rotation : Value) (maxRetries : Q)
    (remaining : list Value) (w : World)
  : list Event * Completion (option (Value * list YtDlp.Cookie)) * World :=
  match remaining with
  | [] => ([], Normal None, w)
  | acc :: rest =>
      let '(evs, found, w1) :=
        try_account_process i acc maxRetries (attempt_numbers (Qfloor maxRetries)) w in
      match found with
      | Thrown => (evs, Thrown, w1)
      | Normal (Some cookies) => (evs, Normal (Some (acc, cookies)), w1) (* break *)
      | Normal None =>
          let rotate :=
            if (Z.of_nat i <? Z.of_nat total - 1) && failover rotation
            then [RotationLogged i] else [] in
          let '(evs', result, w2) :=
            try_accounts_process (S i) total rotation maxRetries rest w1 in
          ((evs ++ rotate ++ evs')%list, result, w2)
      end
  end.

(** The script from its last line, [refreshCookies().catch(...)]. *)
Definition refreshCookies_process (file : ConfigFile) (dir : Dir) (w : World) : Ending :=
  match loadAccountsConfig file with
  | None =>
      Returned {| outcome := ConfigInvalid; exitCode := 1; events := []; disk := dir |}
  | Some config =>
      let maxRetries := ToNumber (maxRetriesPerAccount (rotation config)) in
      let '(evs, result, w1) :=
        try_accounts_process 0 (length (accounts config)) (rotation config) maxRetries
                             (accounts config) w in
      match result with
      | Thrown => Fatal evs dir
      | Normal (Some (successAccount, successfulCookies)) =>
          Returned {| outcome := Succeeded successAccount successfulCookies;
                      exitCode := 0;
                      events := evs;
                      disk := saveCookies JSON_stringify (now w1) successfulCookies dir |}
      | Normal None =>
          Returned {| outcome := Exhausted; exitCode := 1; events := evs; disk := dir |}
      end
  end.

End Run.

(** The conversion on the values that need no parsing. *)
Definition plain_number (maxRetries : Value) : Q := inject_Z (budget maxRetries).

End Process.

Import Process.

(** ** The cron wrapper [scripts/refresh-cookies.sh] *)

Module Cron.

(** What the wrapper finds on the host. *)
Record Host : Type := {
  PROJECT_DIR : string;
  cd_ok : bool;                  (* [cd "$PROJECT_DIR"] *)
  node_found : bool;             (* [command -v node] *)
  node_modules_found : bool;     (* [-d node_modules] *)
  npm_install_ok : bool;         (* [npm install] exits 0 *)
  xvfb_found : bool;             (* [command -v xvfb-run] *)
  validation_exit : Z;           (* exit status of [scripts/test-cookies.js] *)
}.

(** [-f config/accounts.json] *)
Definition config_found (file : ConfigFile) : bool :=
  match file with
  | Missing => false
  | _ => true
  end.

(** The programs the wrapper starts. *)
Inductive Started : Type :=
| NpmInstall
| Refresh (under_xvfb : bool)
| Validation.

(** What a run of the wrapper does: its exit status, the programs it starts
    and the messages it hands to [log], both in order. *)
Record Job : Type := {
  status : Z;
  started : list Started;
  logged : list string;
}.

Definition bar : string := "==========================================".

(** The wrapper.  [refresh_exit] is the exit status of
    [node scripts/refresh-cookies.js], which [xvfb-run] hands on. *)
Definition refresh_cookies_sh (host : Host) (file : ConfigFile) (refresh_exit : Z) : Job :=
  let banner := [bar; "Cookie Refresh Cron Job Started"; bar;
                 "Project directory: " +:+ PROJECT_DIR host] in
  if negb (cd_ok host)
  then {| status := 1; started := [];
          logged := (banner ++ ["ERROR: Failed to change to project directory"])%list |}
  else if negb (node_found host)
  then {| status := 1; started := [];
          logged := (banner ++ ["ERROR: Node.js is not installed or not in PATH"])%list |}
  else
    let install := if node_modules_found host then [] else [NpmInstall] in
    let warned :=
      if node_modules_found host then []
      else ["WARNING: node_modules not found, running npm install..."] in
    if negb (node_modules_found host) && negb (npm_install_ok host)
    then {| status := 1; started := install;
            logged := (banner ++ warned ++ ["ERROR: npm install failed"])%list |}
    else if negb (config_found file)
    then {| status := 1; started := install;
            logged := (banner ++ warned
                       ++ ["ERROR: config/accounts.json not found";
                           "Please create the config file from accounts.json.example"])%list |}
    else
      let EXIT_CODE := refresh_exit in
      let display :=
        if xvfb_found host then []
        else ["WARNING: xvfb-run not found, trying without virtual display...";
              "Install with: sudo apt install xvfb"] in
      let report :=
        if EXIT_CODE =? 0
        then ["Cookie refresh completed successfully";
              "Running cookie validation test...";
              if validation_exit host =? 0 then "Cookie validation PASSED"
              else "WARNING: Cookie validation FAILED"]
        else ["ERROR: Cookie refresh failed with exit code " +:+ decimal EXIT_CODE] in
      {| status := EXIT_CODE;
         started := (install ++ [Refresh (xvfb_found host)]
                     ++ (if EXIT_CODE =? 0 then [Validation] else []))%list;
         logged := (banner ++ warned ++ ["Running cookie refresh script with Xvfb..."]
                    ++ display ++ report
                    ++ [bar; "Cookie Refresh Cron Job Finished"; bar; EmptyString])%list |}.

End Cron.

Import Cron.

(** ** Concrete inputs for the facts on the rest of the script *)

Module MoreScenarios.

(** A directory that already holds five backups and a file of its own. *)
Definition busy_dir : Dir :=
  <["notes.txt" := "keep"]>
    (persist_all render initial_dir (take 5 daily_runs)).

Definition healthy_host : Host :=
  {| PROJECT_DIR := "/srv/linkiz-music-BE"; cd_ok := true; node_found := true; node_modules_found := true;
     npm_install_ok := true; xvfb_found := true; validation_exit := 1 |}.



(** Five daily runs and a sixth after the clock was set back by a week. *)
Definition set_back_runs : list (Z * list YtDlp.Cookie) :=
  (take 5 daily_runs ++ [(1699395200000, session "v6")])%list.



(** One account, no [rotation] block, a provider that always shows a
    CAPTCHA. *)
Definition captcha_process : Ending :=
  refreshCookies_process (always captcha_page) (fun _ => 1700000000000) render plain_number
                         (Parsed no_rotation_config) {[ "cookies.json" := "[]" ]} tt.


(** Three accounts, two attempts each: the first account meets a CAPTCHA,
    the second times out, the third logs in. *)
Definition three_accounts_process : Ending :=
  refreshCookies_process scripted (fun _ => 1700000000000) render plain_number
    (Parsed (JObj [("accounts", JArr [login_of "one@gmail.com"; login_of "two@gmail.com";
                                       login_of "three@gmail.com"]);
                   ("rotation", rotation_block (JBool true) (JNum 2))]))
    {[ "cookies.json" := "[]" ]}
    [captcha_page; captcha_page; Throws; Throws; logged_in_page].

(** What [attemptLogin] returns on [logged_in_page]. *)
Definition harvested : list YtDlp.Cookie :=
  convertCookies (fun _ => 1700000000000) essential_set.

End MoreScenarios.

Import MoreScenarios.

(** * Facts *)

(** ** Credential pool *)

Section PoolFacts.

Lemma not_strictly_false_iff v : not_strictly_false v = true <-> v <> JBool false.
Proof.
  destruct v as [| |[]| | | |]; simpl; split; intros H; try congruence; try done.
Qed.

Lemma enabled_returns acc : nullish acc = false -> enabled acc = Normal (keeps acc).
Proof. destruct acc; intros H; try discriminate H; reflexivity. Qed.

Lemma enabled_throws acc : nullish acc = true -> enabled acc = Thrown.
Proof. destruct acc; intros H; try discriminate H; reflexivity. Qed.

Lemma filter_enabled_returns items :
  (forall acc, acc ∈ items -> nullish acc = false) ->
  filter_enabled items = Normal (List.filter keeps items).
Proof.
  induction items as [|acc rest IH]; intros Hok; simpl; [done|].
  rewrite enabled_returns by (apply Hok; left).
  rewrite IH by (intros x Hx; apply Hok; by right).
  simpl. by destruct (keeps acc).
Qed.

Lemma filter_enabled_throws items acc :
  acc ∈ items -> nullish acc = true -> filter_enabled items = Thrown.
Proof.
  induction items as [|x rest IH]; intros Hin Hnull; [by apply elem_of_nil in Hin|].
  apply elem_of_cons in Hin as [->|Hin]; simpl.
  - by rewrite enabled_throws.
  - destruct (enabled x) as [b|]; simpl; [|done].
    by rewrite IH.
Qed.

Lemma filter_enabled_inv items kept :
  filter_enabled items = Normal kept ->
  (forall acc, acc ∈ items -> nullish acc = false) /\ kept = List.filter keeps items.
Proof.
  intros H.
  assert (Hok : forall acc, acc ∈ items -> nullish acc = false).
  { intros acc Hin. destruct (nullish acc) eqn:E; [|done].
    by rewrite (filter_enabled_throws items acc Hin E) in H. }
  split; [done|]. rewrite filter_enabled_returns in H by done. congruence.
Qed.

(** What a successful load returns. *)
Lemma load_some_inv file cfg :
  loadAccountsConfig file = Some cfg ->
  exists members items,
    file = Parsed (JObj members) /\
    member "accounts" members = JArr items /\
    (forall acc, acc ∈ items -> nullish acc = false) /\
    accounts cfg = List.filter keeps items /\
    accounts cfg <> [] /\
    rotation cfg = member "rotation" members.
Proof.
  destruct file as [| |config]; simpl; try done.
  destruct config as [| | | | | |members]; simpl; try done.
  intros H. exists members. unfold load_parsed in H. simpl in H.
  destruct (member "accounts" members) as [| |b|n|s|items|ms] eqn:Hacc; simpl in H; try done.
  - destruct b; simpl in H; done.
  - destruct (negb (Z.eqb n 0)); simpl in H; done.
  - destruct (negb (String.eqb s "")); simpl in H; [|done].
    destruct (Nat.eqb (String.length s) 0); simpl in H; done.
  - exists items. destruct (Nat.eqb (length items) 0) eqn:Hlen; simpl in H; [done|].
    destruct (filter_enabled items) as [kept|] eqn:Hf; simpl in H; [|done].
    apply filter_enabled_inv in Hf as [Hok ->].
    destruct (Nat.eqb (length (List.filter keeps items)) 0) eqn:Hk; [done|].
    injection H as <-. simpl. repeat split; try done.
    intros E. rewrite E in Hk. done.
  - destruct (match member "length" ms with JNum 0 => true | _ => false end); simpl in H; done.
Qed.

Lemma loadable_loads file :
  loadable file -> exists cfg, loadAccountsConfig file = Some cfg.
Proof.
  intros (members & items & -> & Hacc & Hok & acc & Hin & Hen).
  assert (Hkept : acc ∈ List.filter keeps items).
  { apply list_elem_of_In, filter_In. split; [by apply list_elem_of_In|].
    by apply not_strictly_false_iff. }
  assert (Hlen : Nat.eqb (length items) 0 = false).
  { destruct items; [by apply elem_of_nil in Hin|done]. }
  unfold loadAccountsConfig, load_parsed, prop, bind.
  rewrite Hacc. unfold truthy, length_is_zero, filter_accounts.
  rewrite Hlen, filter_enabled_returns by done.
  destruct (List.filter keeps items) as [|k ks]; [by apply elem_of_nil in Hkept|].
  simpl. eauto.
Qed.

End PoolFacts.

Section PoolClaims.

Lemma keeps_iff acc : keeps acc = true <-> opt_prop acc "enabled" <> JBool false.
Proof. apply not_strictly_false_iff. Qed.

(** C9 (amended).  [loadAccountsConfig] returns [null] exactly when the file
    is missing, is not JSON, or its value is not an object whose [accounts]
    member is an array without [null] entries that holds at least one
    account whose [enabled] is not [false].  The [rotation] block plays no
    part in this: a file without it loads.  When the load fails, the run ends
    at once with exit code 1, no login attempt and the directory untouched. *)
Theorem load_fails_iff_not_loadable :
  forall file : ConfigFile,
    (loadAccountsConfig file = None <-> ~ loadable file) /\
    (forall (World : Type) (browse : Value -> Z -> World -> Observation * World)
            (now : World -> Z) (JSON_stringify : list YtDlp.Cookie -> string)
            (dir : Dir) (w : World),
        ~ loadable file ->
        refreshCookies browse now JSON_stringify file dir w =
        {| outcome := ConfigInvalid; exitCode := 1; events := []; disk := dir |}).
Proof.
  intros file.
  assert (Hiff : loadAccountsConfig file = None <-> ~ loadable file).
  { split.
    - intros Hnone Hl. apply loadable_loads in Hl as [cfg Hcfg]. congruence.
    - intros Hnot. destruct (loadAccountsConfig file) as [cfg|] eqn:E; [|done].
      exfalso. apply Hnot.
      apply load_some_inv in E as (members & items & -> & Hacc & Hok & Hf & Hne & _).
      exists members, items. repeat split; try done.
      destruct (accounts cfg) as [|acc rest] eqn:Ea; [done|].
      assert (Hin : acc ∈ List.filter keeps items) by (rewrite <- Hf; left).
      apply list_elem_of_In, filter_In in Hin as [Hin Hk].
      exists acc. split; [by apply list_elem_of_In|]. by apply keeps_iff. }
  split; [done|].
  intros World browse now JSON_stringify dir w Hnot.
  apply Hiff in Hnot. unfold refreshCookies. by rewrite Hnot.
Qed.

(** C9, the claim as worded fails: a configuration record without the
    [rotation] block is not of the shape section 6 describes, and it loads. *)
Lemma load_accepts_record_without_rotation :
  spec_record_shape no_rotation_config = false /\
  loadAccountsConfig (Parsed no_rotation_config) =
  Some {| accounts := [login_of "primary@gmail.com"]; rotation := VUndefined |}.
Proof. split; reflexivity. Qed.

(** C10.  The accounts of a loaded configuration are the entries of the
    [accounts] array, in order, without those whose [enabled] member is the
    boolean [false]; an entry without [enabled], or with any other value
    there, stays. *)
Theorem filter_drops_exactly_enabled_false :
  forall (file : ConfigFile) (cfg : Config),
    loadAccountsConfig file = Some cfg ->
    exists members items,
      file = Parsed (JObj members) /\
      member "accounts" members = JArr items /\
      accounts cfg =
        List.filter (fun acc => not_strictly_false (opt_prop acc "enabled")) items /\
      (forall acc, acc ∈ accounts cfg <-> acc ∈ items /\ opt_prop acc "enabled" <> JBool false).
Proof.
  intros file cfg H.
  apply load_some_inv in H as (members & items & -> & Hacc & _ & Hf & _ & _).
  exists members, items. repeat split; try done.
  - rewrite Hf in H. apply list_elem_of_In, filter_In in H as [H _]. by apply list_elem_of_In.
  - rewrite Hf in H. apply list_elem_of_In, filter_In in H as [_ H]. by apply keeps_iff.
  - intros [Hin Hen]. rewrite Hf. apply list_elem_of_In, filter_In.
    split; [by apply list_elem_of_In | by apply keeps_iff].
Qed.

(** The statement above on the four accounts of [mixed_config]. *)
Lemma filter_drops_exactly_enabled_false_witness :
  loadAccountsConfig (Parsed mixed_config) = Some mixed_loaded /\
  exists members items,
    Parsed mixed_config = Parsed (JObj members) /\
    member "accounts" members = JArr items /\
    accounts mixed_loaded =
      List.filter (fun acc => not_strictly_false (opt_prop acc "enabled")) items /\
    (forall acc, acc ∈ accounts mixed_loaded <->
                 acc ∈ items /\ opt_prop acc "enabled" <> JBool false).
Proof.
  split; [reflexivity|].
  apply (filter_drops_exactly_enabled_false (Parsed mixed_config) mixed_loaded).
  reflexivity.
Defined.

End PoolClaims.

(** ** Session validator *)

Section ValidatorFacts.

Lemma array_includes_iff names x : array_includes names x = true <-> x ∈ names.
Proof.
  unfold array_includes. rewrite existsb_exists. split.
  - intros (y & Hin & Heq). apply String.eqb_eq in Heq as ->. by apply list_elem_of_In.
  - intros Hin. exists x. split; [by apply list_elem_of_In | apply String.eqb_refl].
Qed.

Lemma is_empty_iff s : is_empty s = true <-> s = "".
Proof. apply String.eqb_eq. Qed.

(** [l.filter(p).length > 0] *)
Lemma some_pass {A} (p : A -> bool) (l : list A) :
  Nat.ltb 0 (length (List.filter p l)) = true <-> exists x, x ∈ l /\ p x = true.
Proof.
  split.
  - destruct (List.filter p l) as [|x rest] eqn:E; [done|]. intros _.
    assert (Hin : In x (List.filter p l)) by (rewrite E; by left).
    apply filter_In in Hin as [Hin Hp]. exists x. split; [by apply list_elem_of_In|done].
  - intros (x & Hin & Hp).
    assert (Hf : In x (List.filter p l)).
    { apply filter_In. split; [by apply list_elem_of_In|done]. }
    by destruct (List.filter p l).
Qed.

Lemma validateCookies_false cookies :
  validateCookies cookies = false <-> missing_name cookies \/ empty_essential cookies.
Proof.
  unfold validateCookies, missing_name, empty_essential.
  destruct (Nat.ltb 0 (length (List.filter _ ESSENTIAL_COOKIES))) eqn:Hm.
  - apply some_pass in Hm as (n & Hin & Hn). split; [|done]. intros _. left.
    exists n. split; [done|]. intros Hc. apply array_includes_iff in Hc.
    rewrite Hc in Hn. done.
  - destruct (Nat.ltb 0 (length (List.filter _ cookies))) eqn:He.
    + apply some_pass in He as (c & Hin & Hc). apply andb_true_iff in Hc as [Hc1 Hc2].
      split; [|done]. intros _. right. exists c.
      by rewrite <- array_includes_iff, <- is_empty_iff.
    + split; [done|]. intros [(n & Hin & Hn)|(c & Hin & Hc1 & Hc2)]; exfalso.
      * assert (Nat.ltb 0 (length (List.filter
                  (fun name => negb (array_includes (map Puppeteer.name cookies) name))
                  ESSENTIAL_COOKIES)) = true) as Hcontra; [|congruence].
        apply some_pass. exists n. split; [done|].
        destruct (array_includes _ n) eqn:E; [|done].
        apply array_includes_iff in E. done.
      * assert (Nat.ltb 0 (length (List.filter
                  (fun c => array_includes ESSENTIAL_COOKIES (Puppeteer.name c)
                            && is_empty (Puppeteer.value c)) cookies)) = true) as Hcontra;
          [|congruence].
        apply some_pass. exists c. split; [done|]. apply andb_true_iff.
        by rewrite array_includes_iff, is_empty_iff.
Qed.

(** C5.  [validateCookies] returns [false] exactly when one of the six
    essential names is carried by no cookie, or some cookie with an essential
    name has an empty value; hence it returns [true] on every set in which
    all six names occur and no cookie bearing one of them is empty, whatever
    other cookies the set holds. *)
Theorem validateCookies_required_tokens :
  forall cookies : list Puppeteer.Cookie,
    ESSENTIAL_COOKIES = ["SID"; "HSID"; "SSID"; "APISID"; "SAPISID"; "LOGIN_INFO"] /\
    (validateCookies cookies = false <-> missing_name cookies \/ empty_essential cookies) /\
    (validateCookies cookies = true <->
       (forall name, name ∈ ESSENTIAL_COOKIES -> name ∈ map Puppeteer.name cookies) /\
       (forall c, c ∈ cookies -> Puppeteer.name c ∈ ESSENTIAL_COOKIES ->
                  Puppeteer.value c <> "")).
Proof.
  intros cookies. split; [reflexivity|]. split; [apply validateCookies_false|].
  split.
  - intros Htrue. split.
    + intros n Hn. destruct (decide (n ∈ map Puppeteer.name cookies)) as [|Hno]; [done|].
      assert (validateCookies cookies = false) as Hf; [|congruence].
      apply validateCookies_false. left. by exists n.
    + intros c Hin Hname Hempty.
      assert (validateCookies cookies = false) as Hf; [|congruence].
      apply validateCookies_false. right. by exists c.
  - intros [Hall Hfull]. destruct (validateCookies cookies) eqn:E; [done|].
    apply validateCookies_false in E as [(n & Hn & Hno)|(c & Hin & Hname & Hempty)].
    + by apply Hall in Hn.
    + by destruct (Hfull c Hin Hname).
Qed.

(** The six essential cookies pass, also among other cookies; they fail
    once one is taken out or emptied. *)
Example validateCookies_examples :
  validateCookies essential_set = true /\
  validateCookies (browser_cookie "PREF" "" ".youtube.com" (-1 # 1) :: essential_set) = true /\
  validateCookies (tail essential_set) = false /\
  validateCookies (browser_cookie "HSID" "" ".google.com" (-1 # 1) :: essential_set) = false.
Proof. repeat split; reflexivity. Qed.

End ValidatorFacts.

(** ** Normalisation *)

Section NormalisationFacts.

Lemma default_expiry_inj t1 t2 :
  default_expiry t1 = default_expiry t2 <-> t1 / 1000 = t2 / 1000.
Proof.
  unfold default_expiry, inject_Z. split.
  - intros H. injection H as H. lia.
  - intros H. by rewrite H.
Qed.

(** C4 (amended).  The conversion reads the clock only for a record whose
    expiry is absent or not positive: there [expirationDate] is
    [floor(now / 1000) + 31536000].  So two conversions of the same record
    give the same output exactly when the record has a positive expiry or
    the two calls fall in the same clock second; on every other field they
    always agree. *)
Theorem convertCookie_same_output_iff :
  forall (cookie : Puppeteer.Cookie) (t1 t2 : Z),
    (convertCookie t1 cookie = convertCookie t2 cookie <->
       expires_positive cookie = true \/ t1 / 1000 = t2 / 1000) /\
    (expires_positive cookie = false ->
       YtDlp.expirationDate (convertCookie t1 cookie) = inject_Z (t1 / 1000 + 31536000)) /\
    same_but_expiration (convertCookie t1 cookie) (convertCookie t2 cookie).
Proof.
  intros cookie t1 t2. split; [split|split].
  - intros Heq. destruct (expires_positive cookie) eqn:E; [by left|right].
    apply (f_equal YtDlp.expirationDate) in Heq. simpl in Heq. rewrite E in Heq.
    by apply default_expiry_inj.
  - intros [E|Hsec]; unfold convertCookie.
    + by rewrite E.
    + apply default_expiry_inj in Hsec. by rewrite Hsec.
  - intros E. simpl. by rewrite E.
  - by repeat split.
Qed.

(** C4, the claim as worded fails: a session-only cookie converted at two
    times one second apart gives two different records. *)
Lemma convertCookie_depends_on_clock :
  convertCookie 1700000000000 session_cookie <> convertCookie 1700000001000 session_cookie.
Proof.
  intros H. apply (f_equal YtDlp.expirationDate) in H. vm_compute in H. discriminate H.
Qed.

End NormalisationFacts.

(** ** Session store *)

(** *** Decimal texts and their order *)

Section DecimalFacts.

Lemma digit_value_digit d : 0 <= d < 10 -> digit_value (digit d) = d.
Proof.
  intros Hd. unfold digit_value, digit.
  assert (Hn : nat_of_ascii (ascii_of_nat (48 + Z.to_nat d)) = (48 + Z.to_nat d)%nat).
  { apply nat_ascii_embedding. lia. }
  unfold nat_of_ascii in Hn. lia.
Qed.

Lemma number_of_bound s : all_digits s -> 0 <= number_of s < 10 ^ Z.of_nat (String.length s).
Proof.
  induction s as [|c s IH]; simpl String.length; simpl number_of; [simpl; lia|].
  intros [Hc Hs]. specialize (IH Hs).
  rewrite Nat2Z.inj_succ, Z.pow_succ_r by lia. nia.
Qed.

Lemma digits_spec fuel :
  forall n acc,
    0 <= n < 2 ^ Z.of_nat fuel -> all_digits acc ->
    all_digits (digits fuel n acc) /\
    number_of (digits fuel n acc) = n * 10 ^ Z.of_nat (String.length acc) + number_of acc.
Proof.
  induction fuel as [|fuel IH]; intros n acc Hn Hacc.
  - simpl in *. split; [done|]. assert (n = 0) as -> by lia. lia.
  - cbn [digits].
    assert (Hmod : 0 <= n mod 10 < 10) by (apply Z.mod_pos_bound; lia).
    assert (Hacc' : all_digits (String (digit (n mod 10)) acc)).
    { simpl. rewrite digit_value_digit by done. split; [lia|done]. }
    assert (Hval : number_of (String (digit (n mod 10)) acc)
                   = n mod 10 * 10 ^ Z.of_nat (String.length acc) + number_of acc).
    { simpl. by rewrite digit_value_digit. }
    destruct (n <? 10) eqn:Hlt.
    + split; [done|]. rewrite Hval. apply Z.ltb_lt in Hlt.
      rewrite Z.mod_small by lia. done.
    + apply Z.ltb_ge in Hlt.
      assert (Hdiv : 0 <= n / 10 < 2 ^ Z.of_nat fuel).
      { split; [apply Z.div_pos; lia|].
        apply Z.div_lt_upper_bound; [lia|].
        rewrite Nat2Z.inj_succ, Z.pow_succ_r in Hn by lia. lia. }
      destruct (IH (n / 10) _ Hdiv Hacc') as [Hall Hnum]. split; [done|].
      rewrite Hnum, Hval. simpl String.length.
      rewrite Nat2Z.inj_succ, Z.pow_succ_r by lia.
      pose proof (Z.div_mod n 10 ltac:(lia)) as Hdm.
      set (P := 10 ^ Z.of_nat (String.length acc)) in *. nia.
Qed.

Lemma decimal_spec n : 0 <= n -> all_digits (decimal n) /\ number_of (decimal n) = n.
Proof.
  intros Hn. unfold decimal.
  destruct (n <? 0) eqn:Hneg; [apply Z.ltb_lt in Hneg; lia|].
  destruct (digits_spec (S (Z.to_nat (Z.log2 n))) n "") as [Hall Hnum].
  - split; [done|]. rewrite Nat2Z.inj_succ, Z2Nat.id by apply Z.log2_nonneg.
    destruct (Z.eq_dec n 0) as [->|Hnz]; [done|].
    apply Z.log2_spec. lia.
  - done.
  - split; [done|]. rewrite Hnum. simpl. lia.
Qed.

Lemma ascii_compare_digit_value a b :
  Ascii.compare a b = (digit_value a ?= digit_value b).
Proof.
  unfold Ascii.compare, digit_value.
  destruct (N.compare_spec (N_of_ascii a) (N_of_ascii b)) as [H|H|H]; symmetry.
  - apply Z.compare_eq_iff. lia.
  - apply Z.compare_lt_iff. lia.
  - apply Z.compare_gt_iff. lia.
Qed.

(** Between decimal texts of the same length, the order of the strings is
    the order of the numbers. *)
Lemma compare_digits x :
  forall y,
    all_digits x -> all_digits y -> String.length x = String.length y ->
    String.compare x y = (number_of x ?= number_of y).
Proof.
  induction x as [|c x IH]; intros [|d y]; simpl; try done.
  intros [Hc Hx] [Hd Hy] [= Hlen].
  pose proof (number_of_bound x Hx) as Bx. pose proof (number_of_bound y Hy) as By.
  rewrite ascii_compare_digit_value, <- Hlen in *.
  set (P := 10 ^ Z.of_nat (String.length x)) in *.
  destruct (Z.compare_spec (digit_value c) (digit_value d)) as [H|H|H].
  - rewrite (IH y) by done. rewrite H.
    destruct (Z.compare_spec (number_of x) (number_of y)); symmetry.
    + apply Z.compare_eq_iff. lia.
    + apply Z.compare_lt_iff. lia.
    + apply Z.compare_gt_iff. lia.
  - symmetry. apply Z.compare_lt_iff. nia.
  - symmetry. apply Z.compare_gt_iff. nia.
Qed.

Lemma string_compare_refl s : String.compare s s = Eq.
Proof.
  induction s as [|c s IH]; simpl; [done|].
  unfold Ascii.compare. by rewrite N.compare_refl.
Qed.

Lemma compare_app_l p x y : String.compare (p +:+ x) (p +:+ y) = String.compare x y.
Proof.
  induction p as [|c p IH]; simpl; [done|].
  unfold Ascii.compare. by rewrite N.compare_refl.
Qed.

Lemma compare_app_r s x :
  forall y, String.length x = String.length y ->
            String.compare (x +:+ s) (y +:+ s) = String.compare x y.
Proof.
  induction x as [|c x IH]; intros [|d y]; simpl; try done.
  - intros _. apply string_compare_refl.
  - intros [= Hlen]. rewrite (IH y Hlen). done.
Qed.

End DecimalFacts.

(** *** Backup names *)

Section BackupNames.

Lemma append_empty_r s : s +:+ "" = s.
Proof. induction s as [|c s IH]; [done|]. change (String c (s +:+ "") = String c s). by f_equal. Qed.

Lemma backupPath_eq t : backupPath t = "cookies.backup_" +:+ decimal t +:+ ".json".
Proof.
  unfold backupPath, COOKIES_OUTPUT_PATH. simpl.
  by rewrite append_empty_r.
Qed.

Lemma backupPath_is_backup t : startsWith (backupPath t) "cookies.backup_" = true.
Proof.
  rewrite backupPath_eq. unfold startsWith. simpl.
  by destruct (decimal t +:+ ".json").
Qed.

Lemma session_file_is_no_backup : startsWith COOKIES_OUTPUT_PATH "cookies.backup_" = false.
Proof. reflexivity. Qed.

Lemma backupPath_not_session_file t : backupPath t <> COOKIES_OUTPUT_PATH.
Proof.
  intros H. pose proof (backupPath_is_backup t) as Hb. rewrite H in Hb. done.
Qed.

Lemma backupPath_compare a b :
  0 <= a -> 0 <= b -> String.length (decimal a) = String.length (decimal b) ->
  String.compare (backupPath a) (backupPath b) = (a ?= b).
Proof.
  intros Ha Hb Hlen.
  destruct (decimal_spec a Ha) as [Hda Hna], (decimal_spec b Hb) as [Hdb Hnb].
  rewrite !backupPath_eq, compare_app_l, compare_app_r by done.
  rewrite compare_digits by done. by rewrite Hna, Hnb.
Qed.

Lemma backupPath_le a b :
  0 <= a -> 0 <= b -> String.length (decimal a) = String.length (decimal b) ->
  String.le (backupPath a) (backupPath b) <-> a <= b.
Proof.
  intros Ha Hb Hlen. unfold String.le, String.leb.
  rewrite backupPath_compare by done.
  destruct (Z.compare_spec a b); simpl; split; intros; try done; lia.
Qed.

Lemma backupPath_inj a b :
  0 <= a -> 0 <= b -> String.length (decimal a) = String.length (decimal b) ->
  backupPath a = backupPath b -> a = b.
Proof.
  intros Ha Hb Hlen Heq. apply Z.compare_eq.
  rewrite <- backupPath_compare, Heq by done. apply string_compare_refl.
Qed.

End BackupNames.

(** *** The directory listing *)

Section Listing.

Lemma map_as_fmap {A B} (f : A -> B) (l : list A) : map f l = f <$> l.
Proof. induction l as [|x l IH]; simpl; [done|by rewrite IH]. Qed.

Lemma elem_of_readdirSync (dir : Dir) f : f ∈ readdirSync dir <-> is_Some (dir !! f).
Proof.
  unfold readdirSync. rewrite list_elem_of_fmap. split.
  - intros ([f' c] & -> & Hin). apply elem_of_map_to_list in Hin. by exists c.
  - intros [c Hc]. exists (f, c). split; [done|]. by apply elem_of_map_to_list.
Qed.

Lemma NoDup_readdirSync (dir : Dir) : NoDup (readdirSync dir).
Proof. apply NoDup_fst_map_to_list. Qed.

Lemma StronglySorted_gt_NoDup ts : StronglySorted Z.gt ts -> NoDup ts.
Proof.
  induction 1 as [|t ts Hs IH Hall]; constructor; [|done].
  intros Hin. rewrite Forall_forall in Hall. specialize (Hall _ Hin). lia.
Qed.

Lemma backupPath_names_descending width ts :
  StronglySorted Z.gt ts -> Forall (same_width width) ts ->
  StronglySorted (flip String.le) (backupPath <$> ts).
Proof.
  induction 1 as [|t ts Hs IH Hall]; intros Hw; simpl; constructor.
  - apply IH. by eapply Forall_inv_tail.
  - apply Forall_fmap, Forall_forall. intros t' Hin. simpl.
    rewrite Forall_forall in Hall, Hw.
    destruct (Hw t (list_elem_of_here _ _)) as [Ht Hlt].
    destruct (Hw t' (list_elem_of_further _ _ _ Hin)) as [Ht' Hlt'].
    apply backupPath_le; [done..|congruence|]. specialize (Hall _ Hin). lia.
Qed.

Lemma backupPath_names_NoDup width ts :
  StronglySorted Z.gt ts -> Forall (same_width width) ts -> NoDup (backupPath <$> ts).
Proof.
  intros Hs Hw. apply NoDup_fmap_2_strong; [|by apply StronglySorted_gt_NoDup].
  rewrite Forall_forall in Hw. intros a b Ha Hb Heq.
  destruct (Hw a Ha), (Hw b Hb). apply backupPath_inj; [done..|congruence|done].
Qed.

(** When the backups of a directory are those of the time stamps [ts], given
    latest first and all of one width, the listing of lines 194-197 returns
    their names in that order. *)
Lemma backup_names_listing width (dir : Dir) ts :
  StronglySorted Z.gt ts -> Forall (same_width width) ts ->
  (forall f, startsWith f "cookies.backup_" = true ->
             (is_Some (dir !! f) <-> exists t, t ∈ ts /\ f = backupPath t)) ->
  backup_names dir = backupPath <$> ts.
Proof.
  intros Hs Hw Hdir. unfold backup_names.
  set (L := filter _ (readdirSync dir)).
  assert (Hsort : merge_sort String.le L = reverse (backupPath <$> ts)).
  { apply (Sorted_unique String.le).
    - apply Sorted_merge_sort, _.
    - apply (Sorted_reverse (flip String.le)), StronglySorted_Sorted.
      by eapply backupPath_names_descending.
    - rewrite merge_sort_Permutation, reverse_Permutation.
      apply NoDup_Permutation.
      + apply NoDup_filter, NoDup_readdirSync.
      + by eapply backupPath_names_NoDup.
      + intros f. unfold L. rewrite list_elem_of_filter, elem_of_readdirSync, list_elem_of_fmap.
        split.
        * intros [Hpre Hsome]. apply Hdir in Hsome as (t & Ht & ->); [|done]. eauto.
        * intros (t & -> & Ht). split; [apply backupPath_is_backup|].
          apply Hdir; [apply backupPath_is_backup|]. eauto. }
  rewrite Hsort. apply reverse_involutive.
Qed.

End Listing.

(** *** One persist *)

Section Persist.

Variable JSON_stringify : list YtDlp.Cookie -> string.

Lemma unlink_all_lookup names :
  forall (d : Dir) f,
    foldl apply_op d (map Unlink names) !! f
    = if decide (f ∈ names) then None else d !! f.
Proof.
  induction names as [|x names IH]; intros d f.
  - cbn. case_decide as H; [by apply elem_of_nil in H|done].
  - cbn [map foldl apply_op]. rewrite IH.
    destruct (decide (f ∈ names)) as [Hin|Hnin], (decide (f ∈ x :: names)) as [Hin'|Hnin'];
      try done.
    + exfalso. apply Hnin'. by right.
    + apply elem_of_cons in Hin' as [->|?]; [|done]. apply lookup_delete_eq.
    + apply lookup_delete_ne. intros ->. apply Hnin'. left.
Qed.

Lemma stale_backups_drop (dir : Dir) : stale_backups dir = drop 5 (backup_names dir).
Proof.
  unfold stale_backups. destruct (Nat.ltb 5 _) eqn:E; [done|].
  apply Nat.ltb_ge in E. by rewrite drop_ge.
Qed.

(** The directory after [saveCookies], when a session file exists. *)
Lemma saveCookies_existing now cookies (dir : Dir) current :
  dir !! COOKIES_OUTPUT_PATH = Some current ->
  let copied := <[backupPath now := current]> dir in
  saveCookies JSON_stringify now cookies dir
  = <[COOKIES_OUTPUT_PATH := JSON_stringify cookies]>
      (<[COOKIES_OUTPUT_PATH := ""]>
         (foldl apply_op copied (map Unlink (drop 5 (backup_names copied))))).
Proof.
  intros Hcur copied. unfold saveCookies, saveCookies_ops, run_ops, existsSync.
  rewrite bool_decide_eq_true_2 by (by eexists).
  simpl apply_op. rewrite Hcur. fold copied.
  rewrite stale_backups_drop. simpl foldl. rewrite Hcur. fold copied.
  by rewrite foldl_app.
Qed.

(** Without a session file there is nothing to back up. *)
Lemma saveCookies_fresh now cookies (dir : Dir) :
  dir !! COOKIES_OUTPUT_PATH = None ->
  saveCookies JSON_stringify now cookies dir
  = <[COOKIES_OUTPUT_PATH := JSON_stringify cookies]> (<[COOKIES_OUTPUT_PATH := ""]> dir).
Proof.
  intros Hnone. unfold saveCookies, saveCookies_ops, run_ops, existsSync.
  rewrite bool_decide_eq_false_2; [done|]. rewrite Hnone. by intros [? ?].
Qed.

Lemma stores_cons width (dir : Dir) current bs now :
  stores width dir current bs -> same_width width now ->
  Forall (fun t => t < now) bs.*1 ->
  stores width (<[backupPath now := current]> dir) current ((now, current) :: bs).
Proof.
  intros (Hcur & Hs & Hw & Hdir) Hnow Hlater. repeat split.
  - rewrite lookup_insert_ne; [done|apply backupPath_not_session_file].
  - simpl. constructor; [done|]. eapply Forall_impl; [exact Hlater|]. simpl. lia.
  - simpl. by constructor.
  - intros Hlook. destruct (decide (f = backupPath now)) as [->|Hne].
    + rewrite lookup_insert_eq in Hlook. injection Hlook as <-.
      exists now. split; [left|done].
    + rewrite lookup_insert_ne in Hlook by done.
      apply Hdir in Hlook as (t & Hin & ->); [|done]. exists t. split; [by right|done].
  - intros (t & Hin & ->). apply elem_of_cons in Hin as [[= -> ->]|Hin].
    + apply lookup_insert_eq.
    + assert (t ∈ bs.*1) as Ht by (apply list_elem_of_fmap; by exists (t, c)).
      rewrite Forall_forall in Hlater, Hw.
      destruct Hnow as [Hn0 Hnw], (Hw t Ht) as [Ht0 Htw].
      rewrite lookup_insert_ne.
      * apply Hdir; [apply backupPath_is_backup|]. eauto.
      * intros Heq. apply backupPath_inj in Heq; [|done..|congruence].
        specialize (Hlater t Ht). lia.
Qed.

Lemma stores_times_of_backups width (dir : Dir) current bs f :
  stores width dir current bs -> startsWith f "cookies.backup_" = true ->
  is_Some (dir !! f) <-> exists t, t ∈ bs.*1 /\ f = backupPath t.
Proof.
  intros (_ & _ & _ & Hdir) Hpre. split.
  - intros [c Hc]. apply Hdir in Hc as (t & Hin & ->); [|done].
    exists t. split; [|done]. apply list_elem_of_fmap. by exists (t, c).
  - intros (t & Hin & ->). apply list_elem_of_fmap in Hin as ([t' c] & -> & Hin).
    exists c. apply Hdir; [apply backupPath_is_backup|]. eauto.
Qed.

Lemma stores_backup_names width (dir : Dir) current bs :
  stores width dir current bs -> backup_names dir = backupPath <$> bs.*1.
Proof.
  intros Hst. pose proof Hst as (_ & Hs & Hw & _).
  apply (backup_names_listing width); [done..|].
  intros f Hpre. by eapply stores_times_of_backups.
Qed.

(** One persist keeps the five latest backups: the copy of the session file
    it replaces, and the four latest from before. *)
Lemma saveCookies_stores width (dir : Dir) current bs now cookies :
  stores width dir current bs -> same_width width now ->
  Forall (fun t => t < now) bs.*1 ->
  stores width (saveCookies JSON_stringify now cookies dir) (JSON_stringify cookies)
         (take 5 ((now, current) :: bs)).
Proof.
  intros Hst Hnow Hlater.
  pose proof (stores_cons _ _ _ _ _ Hst Hnow Hlater) as Hcopied.
  destruct Hst as (Hcur & _).
  rewrite (saveCookies_existing _ _ _ _ Hcur). cbv zeta.
  set (copied := <[backupPath now := current]> dir) in *.
  set (bs' := (now, current) :: bs) in *.
  rewrite (stores_backup_names _ _ _ _ Hcopied), <- fmap_drop.
  destruct Hcopied as (_ & Hs & Hw & Hdir).
  assert (Hsplit : bs'.*1 = (take 5 bs'.*1 ++ drop 5 bs'.*1)%list) by (by rewrite take_drop).
  assert (Hnodup : NoDup (take 5 bs'.*1 ++ drop 5 bs'.*1)).
  { rewrite <- Hsplit. by apply StronglySorted_gt_NoDup. }
  apply NoDup_app in Hnodup as (_ & Hdisj & _).
  repeat split.
  - apply lookup_insert_eq.
  - rewrite fmap_take. rewrite Hsplit in Hs. by apply StronglySorted_app_1_l in Hs.
  - rewrite fmap_take. by apply Forall_take.
  - assert (f <> COOKIES_OUTPUT_PATH) as Hne by (intros ->; done).
    rewrite !lookup_insert_ne, unlink_all_lookup by done.
    case_decide as Hstale; [done|]. intros Hlook.
    apply Hdir in Hlook as (t & Hin & ->); [|done]. exists t. split; [|done].
    rewrite <- (take_drop 5 bs') in Hin. apply elem_of_app in Hin as [Hin|Hin]; [done|].
    exfalso. apply Hstale. apply list_elem_of_fmap. exists t. split; [done|].
    rewrite <- fmap_drop. apply list_elem_of_fmap. by exists (t, c).
  - intros (t & Hin & ->).
    assert (backupPath t <> COOKIES_OUTPUT_PATH) as Hne by apply backupPath_not_session_file.
    rewrite !lookup_insert_ne, unlink_all_lookup by done.
    assert (Hin' : (t, c) ∈ bs').
    { rewrite <- (take_drop 5 bs'). apply elem_of_app. by left. }
    assert (Ht : t ∈ take 5 bs'.*1).
    { rewrite <- fmap_take. apply list_elem_of_fmap. by exists (t, c). }
    rewrite decide_False.
    + apply Hdir; [apply backupPath_is_backup|]. eauto.
    + intros (t' & Heq & Ht')%list_elem_of_fmap.
      rewrite Forall_forall in Hw.
      assert (t ∈ bs'.*1) as Hmem by (rewrite Hsplit; apply elem_of_app; by left).
      assert (t' ∈ bs'.*1) as Hmem' by (rewrite Hsplit; apply elem_of_app; by right).
      destruct (Hw t Hmem) as [? ?], (Hw t' Hmem') as [? ?].
      apply backupPath_inj in Heq; [|done..|congruence]. subst t'.
      by apply (Hdisj t).
Qed.

End Persist.

(** *** Successive persists *)

Section Retention.

Variable JSON_stringify : list YtDlp.Cookie -> string.

Lemma take_app_take {A} n (l k : list A) :
  take n (l ++ take n k) = take n (l ++ k).
Proof. rewrite !take_app, take_take. f_equal. f_equal. apply Nat.min_l, Nat.le_sub_l. Qed.

Lemma persist_all_stores width runs :
  forall (dir : Dir) current bs,
    stores width dir current bs -> (length bs <= 5)%nat ->
    StronglySorted Z.lt runs.*1 -> Forall (same_width width) runs.*1 ->
    Forall (fun t => Forall (fun t' => t' < t) bs.*1) runs.*1 ->
    stores width (persist_all JSON_stringify dir runs)
           (default current (last (JSON_stringify <$> runs.*2)))
           (take 5 (reverse (zip runs.*1 (current :: (JSON_stringify <$> runs.*2))) ++ bs)).
Proof.
  induction runs as [|[now cookies] rest IH]; intros dir current bs Hst Hlen Hs Hw Hlater.
  - simpl. by rewrite take_ge.
  - simpl in Hs, Hw, Hlater.
    apply StronglySorted_inv in Hs as [Hs Hnow].
    apply Forall_cons in Hw as [Hwnow Hw]. apply Forall_cons in Hlater as [Hlnow Hlater].
    pose proof (saveCookies_stores JSON_stringify _ _ _ _ _ cookies Hst Hwnow Hlnow) as Hstep.
    specialize (IH _ _ _ Hstep).
    cbn [persist_all foldl fmap list_fmap fst snd zip zip_with] in *.
    rewrite reverse_cons, <- app_assoc. cbn [app].
    rewrite last_cons.
    replace (default current
               match last (JSON_stringify <$> rest.*2) with
               | Some y => Some y
               | None => Some (JSON_stringify cookies)
               end)
      with (default (JSON_stringify cookies) (last (JSON_stringify <$> rest.*2)))
      by (by destruct (last _)).
    rewrite <- take_app_take. apply IH; try done.
    + rewrite length_take. lia.
    + rewrite Forall_forall in Hnow, Hlater |- *. intros t Ht.
      rewrite fmap_take. apply Forall_take. constructor.
      * specialize (Hnow _ Ht). simpl. lia.
      * by apply Hlater.
Qed.

Lemma stores_backups width (dir : Dir) current bs :
  stores width dir current bs ->
  backups dir = (fun tc => (backupPath tc.1, tc.2)) <$> bs.
Proof.
  intros Hst. unfold backups. rewrite (stores_backup_names _ _ _ _ Hst).
  destruct Hst as (_ & _ & _ & Hdir).
  rewrite map_as_fmap, <- !list_fmap_compose.
  apply Forall_fmap_ext, Forall_forall. intros [t c] Hin. simpl.
  assert (dir !! backupPath t = Some c) as ->; [|done].
  apply Hdir; [apply backupPath_is_backup|]. eauto.
Qed.

Lemma stores_initial width (dir : Dir) current :
  dir !! COOKIES_OUTPUT_PATH = Some current ->
  Forall (fun f => startsWith f "cookies.backup_" = false) (readdirSync dir) ->
  stores width dir current [].
Proof.
  intros Hcur Hnone. split; [done|]. split; [constructor|]. split; [constructor|].
  intros f c Hpre. split.
  - intros Hlook. rewrite Forall_forall in Hnone.
    assert (f ∈ readdirSync dir) as Hin by (apply elem_of_readdirSync; by eexists).
    apply Hnone in Hin. congruence.
  - intros (t & Hin & _). by apply elem_of_nil in Hin.
Qed.

End Retention.

(** *** The write of the session file *)

Section InPlace.

Variable JSON_stringify : list YtDlp.Cookie -> string.

Lemma stale_backups_are_backups (dir : Dir) f :
  f ∈ stale_backups dir -> startsWith f "cookies.backup_" = true.
Proof.
  rewrite stale_backups_drop. intros Hin.
  assert (f ∈ backup_names dir) as Hname.
  { rewrite <- (take_drop 5 (backup_names dir)). apply elem_of_app. by right. }
  unfold backup_names in Hname.
  rewrite elem_of_reverse, merge_sort_Permutation, list_elem_of_filter in Hname.
  by destruct Hname.
Qed.

Lemma snapshots_unlink_keep names :
  forall (d d' : Dir),
    (forall f, f ∈ names -> f <> COOKIES_OUTPUT_PATH) ->
    d' ∈ snapshots d (map Unlink names) ->
    d' !! COOKIES_OUTPUT_PATH = d !! COOKIES_OUTPUT_PATH.
Proof.
  induction names as [|x names IH]; intros d d' Hne Hin; simpl in Hin.
  - by apply elem_of_nil in Hin.
  - assert (delete x d !! COOKIES_OUTPUT_PATH = d !! COOKIES_OUTPUT_PATH) as Hx.
    { apply lookup_delete_ne. apply Hne. left. }
    apply elem_of_cons in Hin as [->|Hin]; [done|].
    rewrite <- Hx. apply IH; [|done]. intros f Hf. apply Hne. by right.
Qed.

Lemma snapshots_app (dir : Dir) ops1 ops2 :
  snapshots dir (ops1 ++ ops2) = (snapshots dir ops1 ++ snapshots (run_ops dir ops1) ops2)%list.
Proof.
  revert dir. induction ops1 as [|op ops1 IH]; intros dir; simpl; [done|].
  by rewrite IH.
Qed.

Lemma saveCookies_ops_split now cookies (dir : Dir) :
  exists before,
    saveCookies_ops JSON_stringify now cookies dir
    = (before ++ [OpenTruncate COOKIES_OUTPUT_PATH;
                  WriteData COOKIES_OUTPUT_PATH (JSON_stringify cookies)])%list /\
    Forall (fun op => is_rename op = false) before /\
    forall d, d ∈ snapshots dir before ->
              d !! COOKIES_OUTPUT_PATH = dir !! COOKIES_OUTPUT_PATH.
Proof.
  unfold saveCookies_ops, writeFileSync.
  destruct (existsSync dir COOKIES_OUTPUT_PATH) eqn:Hex.
  - eexists. split; [reflexivity|]. split.
    + constructor; [done|]. apply Forall_forall. intros op Hop.
      rewrite map_as_fmap in Hop. by apply list_elem_of_fmap in Hop as (f & -> & _).
    + intros d Hd. simpl in Hd.
      assert (apply_op dir (CopyFile COOKIES_OUTPUT_PATH (backupPath now))
                !! COOKIES_OUTPUT_PATH = dir !! COOKIES_OUTPUT_PATH) as Hcopy.
      { simpl. destruct (dir !! COOKIES_OUTPUT_PATH) eqn:Hcur; [|done].
        rewrite lookup_insert_ne; [done|apply backupPath_not_session_file]. }
      apply elem_of_cons in Hd as [->|Hd]; [done|].
      rewrite <- Hcopy. eapply snapshots_unlink_keep; [|done].
      intros f Hf ->. apply stale_backups_are_backups in Hf. done.
  - exists []. split; [done|]. split; [constructor|].
    intros d Hd. by apply elem_of_nil in Hd.
Qed.

End InPlace.

Section StoreClaims.

(** Where the retention keeps the latest five.  Start from a directory
    with a session file and no file named [cookies.backup_...], and let
    [N >= 6] runs persist one after the other at strictly increasing time
    stamps that are written with the same number of digits.  Then exactly
    five backups remain: the copies made by the five latest runs, each
    holding the session file as it was just before that run, the latest
    first. *)
Theorem backups_keep_five_latest :
  forall (JSON_stringify : list YtDlp.Cookie -> string) (width : nat) (dir : Dir)
         (current : string) (runs : list (Z * list YtDlp.Cookie)),
    dir !! COOKIES_OUTPUT_PATH = Some current ->
    Forall (fun f => startsWith f "cookies.backup_" = false) (readdirSync dir) ->
    StronglySorted Z.lt runs.*1 ->
    Forall (same_width width) runs.*1 ->
    (6 <= length runs)%nat ->
    let final := persist_all JSON_stringify dir runs in
    backups final
      = (fun tc => (backupPath tc.1, tc.2))
          <$> take 5 (reverse (zip runs.*1 (current :: (JSON_stringify <$> runs.*2)))) /\
    length (backups final) = 5%nat.
Proof.
  intros JSON_stringify width dir current runs Hcur Hnone Hs Hw Hlen final.
  pose proof (stores_initial width dir current Hcur Hnone) as Hinit.
  pose proof (persist_all_stores JSON_stringify width runs dir current [] Hinit) as Hfinal.
  rewrite app_nil_r in Hfinal.
  assert (Hstores := Hfinal ltac:(simpl; lia) Hs Hw
                        ltac:(apply Forall_forall; intros; constructor)).
  fold final in Hstores.
  assert (Heq := stores_backups _ _ _ _ Hstores). split; [done|].
  rewrite Heq, length_fmap, length_take, length_reverse, length_zip_with.
  cbn [length]. rewrite !length_fmap. lia.
Qed.

(** The statement above on six daily runs. *)
Lemma backups_keep_five_latest_witness :
  initial_dir !! COOKIES_OUTPUT_PATH = Some "SID=v0" /\
  Forall (fun f => startsWith f "cookies.backup_" = false) (readdirSync initial_dir) /\
  StronglySorted Z.lt daily_runs.*1 /\
  Forall (same_width 13) daily_runs.*1 /\
  (6 <= length daily_runs)%nat /\
  backups (persist_all render initial_dir daily_runs)
    = (fun tc => (backupPath tc.1, tc.2))
        <$> take 5 (reverse (zip daily_runs.*1 ("SID=v0" :: (render <$> daily_runs.*2)))) /\
  length (backups (persist_all render initial_dir daily_runs)) = 5%nat.
Proof.
  assert (H1 : initial_dir !! COOKIES_OUTPUT_PATH = Some "SID=v0") by reflexivity.
  assert (H2 : Forall (fun f => startsWith f "cookies.backup_" = false)
                      (readdirSync initial_dir)) by (vm_compute; repeat constructor).
  assert (H3 : StronglySorted Z.lt daily_runs.*1) by (repeat constructor).
  assert (H4 : Forall (same_width 13) daily_runs.*1).
  { repeat (constructor; [split; [done|vm_compute; reflexivity]|]). constructor. }
  assert (H5 : (6 <= length daily_runs)%nat) by (simpl; lia).
  split; [exact H1|]. split; [exact H2|]. split; [exact H3|]. split; [exact H4|].
  split; [exact H5|].
  exact (backups_keep_five_latest render 13 initial_dir "SID=v0" daily_runs H1 H2 H3 H4 H5).
Defined.

(** C6, the code at the failing input: six daily persists, the sixth at
    the first fourteen-digit time stamp.  The listing is ordered by file
    name (lines 194-197), and the name of the backup made at that time
    stamp sorts below the thirteen-digit ones: the sixth run deletes the
    backup it has just made, so the latest prior session, [SID=v5], is not
    kept while the oldest, [SID=v0], is.  The second equation gives the
    five latest prior states, which line 193 says are kept. *)
Lemma backups_lost_at_digit_rollover :
  (backups (persist_all render initial_dir rollover_runs))
    = [ ("cookies.backup_9999913600000.json", "SID=v4");
        ("cookies.backup_9999827200000.json", "SID=v3");
        ("cookies.backup_9999740800000.json", "SID=v2");
        ("cookies.backup_9999654400000.json", "SID=v1");
        ("cookies.backup_9999568000000.json", "SID=v0") ] /\
  take 5 (reverse (zip rollover_runs.*1 ("SID=v0" :: (render <$> rollover_runs.*2))))
    = [ (10000000000000, "SID=v5"); (9999913600000, "SID=v4");
        (9999827200000, "SID=v3"); (9999740800000, "SID=v2");
        (9999654400000, "SID=v1") ].
Proof. split; vm_compute; reflexivity. Qed.

(** The same happens with a file of that prefix left in the directory by
    hand: it sorts above every time-stamped backup and takes one of the five
    places for good. *)
Example backups_with_foreign_file :
  (backups (persist_all render (<["cookies.backup_manual.json" := "kept"]> initial_dir)
                        daily_runs)).*2
  = ["kept"; "SID=v5"; "SID=v4"; "SID=v3"; "SID=v2"].
Proof. vm_compute. reflexivity. Qed.

(** C3 (amended).  [saveCookies] issues no rename and uses no temporary
    file: after the backup copy and the deletion of old backups, which leave
    the session file as it was, it opens the session file itself with
    truncation and writes the array into it.  In between the session file
    is there to be read, empty; it holds the new array once the call has
    returned. *)
Theorem saveCookies_writes_in_place :
  forall (JSON_stringify : list YtDlp.Cookie -> string) (now : Z)
         (cookies : list YtDlp.Cookie) (dir : Dir),
    let ops := saveCookies_ops JSON_stringify now cookies dir in
    Forall (fun op => is_rename op = false) ops /\
    (exists before,
       ops = (before ++ [OpenTruncate COOKIES_OUTPUT_PATH;
                         WriteData COOKIES_OUTPUT_PATH (JSON_stringify cookies)])%list /\
       forall d, d ∈ snapshots dir before ->
                 d !! COOKIES_OUTPUT_PATH = dir !! COOKIES_OUTPUT_PATH) /\
    (exists d, d ∈ snapshots dir ops /\ d !! COOKIES_OUTPUT_PATH = Some "") /\
    saveCookies JSON_stringify now cookies dir !! COOKIES_OUTPUT_PATH
      = Some (JSON_stringify cookies).
Proof.
  intros JSON_stringify now cookies dir ops.
  destruct (saveCookies_ops_split JSON_stringify now cookies dir)
    as (before & Hops & Hnorename & Hkeep).
  fold ops in Hops. split; [|split; [|split]].
  - rewrite Hops. apply Forall_app. split; [done|]. by repeat constructor.
  - by exists before.
  - exists (<[COOKIES_OUTPUT_PATH := ""]> (run_ops dir before)).
    split; [|apply lookup_insert_eq].
    rewrite Hops, snapshots_app. apply elem_of_app. right. simpl. left.
  - unfold saveCookies, run_ops. fold ops. rewrite Hops, foldl_app. simpl.
    apply lookup_insert_eq.
Qed.

(** C3, the claim as worded fails: between the two steps of the write the
    session file is empty, which is neither the prior session nor the new
    one; and no rename is issued. *)
Lemma session_file_seen_truncated :
  let ops := saveCookies_ops render 1700000000000 (session "v1") initial_dir in
  ops = [ CopyFile "cookies.json" "cookies.backup_1700000000000.json";
          OpenTruncate "cookies.json";
          WriteData "cookies.json" "SID=v1" ] /\
  (fun d : Dir => d !! COOKIES_OUTPUT_PATH) <$> snapshots initial_dir ops
    = [Some "SID=v0"; Some ""; Some "SID=v1"] /\
  ~ never_partial initial_dir ops "SID=v1".
Proof.
  cbv zeta. split; [vm_compute; reflexivity|]. split; [vm_compute; reflexivity|].
  intros Hnever.
  destruct (Hnever (<["cookies.json" := ""]>
                      (<["cookies.backup_1700000000000.json" := "SID=v0"]> initial_dir)))
    as [H|H].
  - apply list_elem_of_lookup. exists 1%nat. vm_compute. reflexivity.
  - vm_compute in H. discriminate H.
  - vm_compute in H. discriminate H.
Qed.

End StoreClaims.

(** ** Retry / failover controller *)

Create HintDb runs.
#[local] Hint Constructors account_run pool_run : runs.

Section TraceFacts.

(** Where an element of a concatenation sits. *)
Lemma split_in_app {A} (l1 l2 k1 k2 : list A) (a : A) :
  (l1 ++ a :: l2 = k1 ++ k2)%list ->
  (exists m, k1 = l1 ++ a :: m /\ l2 = m ++ k2)%list \/
  (exists m, l1 = k1 ++ m /\ k2 = m ++ a :: l2)%list.
Proof.
  revert k1. induction l1 as [|x l1 IH]; intros [|y k1] H; simpl in *.
  - right. by exists [].
  - injection H as -> ->. left. by exists k1.
  - right. exists (x :: l1). by rewrite <- H.
  - injection H as -> H. apply IH in H as [(m & -> & ->)|(m & -> & ->)].
    + left. by exists m.
    + right. by exists m.
Qed.

Lemma attempts_app evs1 evs2 : attempts (evs1 ++ evs2) = (attempts evs1 ++ attempts evs2)%list.
Proof. apply omap_app. Qed.

Section Inner.

Variables (i : nat) (acc : Value) (maxRetries : Z).

Lemma account_run_members k tries found a :
  account_run i acc maxRetries k tries found -> a ∈ tries ->
  index a = i /\ account a = acc /\ k <= number a <= maxRetries.
Proof.
  induction 1 as [k Hk|k obs cookies Hk Hobs Hacc|k obs later found Hk Hobs Hrun IH];
    intros Hin.
  - by apply elem_of_nil in Hin.
  - apply list_elem_of_singleton in Hin as ->. simpl. repeat split; (done || lia).
  - apply elem_of_cons in Hin as [->|Hin]; [simpl; repeat split; (done || lia)|].
    destruct (IH Hin) as (? & ? & ?). repeat split; try done; lia.
Qed.

Lemma account_run_sorted k tries found :
  account_run i acc maxRetries k tries found -> StronglySorted before tries.
Proof.
  induction 1 as [k Hk|k obs cookies Hk Hobs Hacc|k obs later found Hk Hobs Hrun IH].
  - constructor.
  - repeat constructor.
  - constructor; [done|]. apply Forall_forall. intros b Hb.
    destruct (account_run_members _ _ _ _ Hrun Hb) as (Hi & _ & Hn & _).
    right. simpl. split; [done|lia].
Qed.

(** A success ends the loop. *)
Lemma account_run_success_last k tries found l1 a l2 :
  account_run i acc maxRetries k tries found ->
  tries = (l1 ++ a :: l2)%list -> succeeded a = true ->
  l2 = [] /\ exists cookies, found = Some cookies /\ attemptLogin (seen a) = Some cookies.
Proof.
  intros Hrun. revert l1.
  induction Hrun as [k Hk|k obs cookies Hk Hobs Hacc|k obs later found Hk Hobs Hrun IH];
    intros l1 Heq Hsucc.
  - by destruct l1.
  - destruct l1 as [|x l1]; [|by destruct l1].
    injection Heq as <- <-. eauto.
  - destruct l1 as [|x l1]; simpl in Heq.
    + injection Heq as <- <-. unfold succeeded in Hsucc. simpl in Hsucc. congruence.
    + injection Heq as _ Heq. by apply (IH l1).
Qed.

Lemma account_run_none k tries :
  account_run i acc maxRetries k tries None -> forall a, a ∈ tries -> succeeded a = false.
Proof.
  remember None as found eqn:Hf.
  induction 1 as [k Hk|k obs cookies Hk Hobs Hacc|k obs later found Hk Hobs Hrun IH];
    intros a Hin.
  - by apply elem_of_nil in Hin.
  - done.
  - apply elem_of_cons in Hin as [->|Hin]; [done|]. by apply IH.
Qed.


(** A failed attempt below the budget is followed by the next attempt on the
    same account. *)
Lemma account_run_retry k tries found l1 a l2 :
  account_run i acc maxRetries k tries found ->
  tries = (l1 ++ a :: l2)%list -> succeeded a = false -> number a < maxRetries ->
  exists obs l3,
    l2 = {| index := index a; account := account a; number := number a + 1; seen := obs |}
         :: l3.
Proof.
  intros Hrun. revert l1.
  induction Hrun as [k Hk|k obs cookies Hk Hobs Hacc|k obs later found Hk Hobs Hrun IH];
    intros l1 Heq Hfail Hlt.
  - by destruct l1.
  - destruct l1 as [|x l1]; [|by destruct l1].
    injection Heq as <- <-. unfold succeeded in Hfail. simpl in Hfail.
    rewrite Hobs in Hfail. congruence.
  - destruct l1 as [|x l1]; simpl in Heq.
    + injection Heq as <- <-. simpl in *.
      inversion Hrun; subst; [lia|eauto..].
    + injection Heq as _ Heq. by apply (IH l1).
Qed.

End Inner.

Section Outer.

Variable maxRetries : Z.

Lemma pool_run_members i accs tries result a :
  pool_run maxRetries i accs tries result -> a ∈ tries ->
  (i <= index a)%nat /\ accs !! (index a - i)%nat = Some (account a) /\
  1 <= number a <= maxRetries.
Proof.
  induction 1 as [i|i acc rest tries cookies Hrun
                  |i acc rest tries later result Hrun Hpool IH]; intros Hin.
  - by apply elem_of_nil in Hin.
  - destruct (account_run_members _ _ _ _ _ _ _ Hrun Hin) as (-> & -> & ?).
    rewrite Nat.sub_diag. done.
  - apply elem_of_app in Hin as [Hin|Hin].
    + destruct (account_run_members _ _ _ _ _ _ _ Hrun Hin) as (-> & -> & ?).
      rewrite Nat.sub_diag. done.
    + destruct (IH Hin) as (Hle & Hacc & Hn). repeat split; try lia.
      replace (index a - i)%nat with (S (index a - S i)) by lia. done.
Qed.

Lemma pool_run_sorted i accs tries result :
  pool_run maxRetries i accs tries result -> StronglySorted before tries.
Proof.
  induction 1 as [i|i acc rest tries cookies Hrun
                  |i acc rest tries later result Hrun Hpool IH].
  - constructor.
  - by eapply account_run_sorted.
  - apply StronglySorted_app_2; [|by eapply account_run_sorted|done].
    intros a b Ha Hb. left.
    destruct (account_run_members _ _ _ _ _ _ _ Hrun Ha) as (-> & _).
    destruct (pool_run_members _ _ _ _ _ Hpool Hb) as (? & _). lia.
Qed.

Lemma pool_run_success_last i accs tries result l1 a l2 :
  pool_run maxRetries i accs tries result ->
  tries = (l1 ++ a :: l2)%list -> succeeded a = true ->
  l2 = [] /\
  exists cookies, result = Some (account a, cookies) /\ attemptLogin (seen a) = Some cookies.
Proof.
  intros Hpool. revert l1.
  induction Hpool as [i|i acc rest tries cookies Hrun
                      |i acc rest tries later result Hrun Hpool IH]; intros l1 Heq Hsucc.
  - by destruct l1.
  - destruct (account_run_success_last _ _ _ _ _ _ _ _ _ Hrun Heq Hsucc)
      as (-> & c & Hc & Hlogin).
    split; [done|]. injection Hc as <-. exists cookies.
    assert (a ∈ tries) as Hin by (rewrite Heq; apply elem_of_app; right; left).
    destruct (account_run_members _ _ _ _ _ _ _ Hrun Hin) as (_ & -> & _). done.
  - symmetry in Heq. apply split_in_app in Heq as [(m & -> & ->)|(m & -> & ->)].
    + exfalso.
      assert (succeeded a = false) as Hf; [|congruence].
      eapply account_run_none; [done|]. apply elem_of_app. right. left.
    + by apply (IH m).
Qed.


Lemma pool_run_retry i accs tries result l1 a l2 :
  pool_run maxRetries i accs tries result ->
  tries = (l1 ++ a :: l2)%list -> succeeded a = false -> number a < maxRetries ->
  exists obs l3,
    l2 = {| index := index a; account := account a; number := number a + 1; seen := obs |}
         :: l3.
Proof.
  intros Hpool. revert l1.
  induction Hpool as [i|i acc rest tries cookies Hrun
                      |i acc rest tries later result Hrun Hpool IH];
    intros l1 Heq Hfail Hlt.
  - by destruct l1.
  - by eapply account_run_retry.
  - symmetry in Heq. apply split_in_app in Heq as [(m & Htries & ->)|(m & -> & ->)].
    + destruct (account_run_retry _ _ _ _ _ _ _ _ _ Hrun Htries Hfail Hlt) as (obs & l3 & ->).
      by exists obs, (l3 ++ later)%list.
    + by apply (IH m).
Qed.

End Outer.

End TraceFacts.

Section RunFacts.

Context {World : Type}.
Variable browse : Value -> Z -> World -> Observation * World.
Variable now : World -> Z.
Variable JSON_stringify : list YtDlp.Cookie -> string.

Lemma try_account_run i acc maxRetries n :
  forall (a : nat) w evs found w',
    (1 <= a)%nat -> (a + n = S (Z.to_nat maxRetries))%nat ->
    try_account browse i acc maxRetries (map Z.of_nat (seq a n)) w = (evs, found, w') ->
    account_run i acc maxRetries (Z.of_nat a) (attempts evs) found.
Proof.
  induction n as [|n IH]; intros a w evs found w' Ha Hsum; simpl.
  - intros [= <- <- <-]. apply ar_spent. lia.
  - destruct (browse acc (Z.of_nat a) w) as [obs w1].
    destruct (accepted (attemptLogin obs)) eqn:Hacc.
    + intros [= <- <- <-]. simpl.
      destruct (attemptLogin obs) as [cookies|] eqn:Hlogin; [|done].
      apply ar_hit; [lia|done..].
    + destruct (try_account browse i acc maxRetries (map Z.of_nat (seq (S a) n)) w1)
        as [[evs' found'] w2] eqn:Hrec.
      intros [= <- <- <-]. simpl. rewrite attempts_app.
      replace (attempts (if Z.of_nat a <? maxRetries then [Backoff i (Z.of_nat a)] else []))
        with (@nil Login) by (by destruct (Z.of_nat a <? maxRetries)).
      simpl. apply ar_miss; [lia|done|].
      replace (Z.of_nat a + 1) with (Z.of_nat (S a)) by lia.
      eapply IH; [| |done]; lia.
Qed.

Lemma try_accounts_run total rotation maxRetries accs :
  forall i w evs result w',
    try_accounts browse i total rotation maxRetries accs w = (evs, result, w') ->
    pool_run maxRetries i accs (attempts evs) result.
Proof.
  induction accs as [|acc rest IH]; intros i w evs result w'; simpl.
  - intros [= <- <- <-]. constructor.
  - destruct (try_account browse i acc maxRetries (attempt_numbers maxRetries) w)
      as [[evs1 found] w1] eqn:Hinner.
    apply (try_account_run i acc maxRetries (Z.to_nat maxRetries) 1) in Hinner; [|lia..].
    destruct found as [cookies|].
    + intros [= <- <- <-]. by apply pr_hit.
    + destruct (try_accounts browse (S i) total rotation maxRetries rest w1)
        as [[evs2 result2] w2] eqn:Hrest.
      intros [= <- <- <-]. rewrite !attempts_app.
      replace (attempts (if (Z.of_nat i <? Z.of_nat total - 1) && failover rotation
                         then [RotationLogged i] else []))
        with (@nil Login) by (by destruct (_ && _)).
      simpl. eapply pr_next; [done|]. by eapply IH.
Qed.

(** The [failover] member only decides whether line 629 is logged. *)
Lemma try_accounts_failover_only_logs total maxRetries accs rotation1 rotation2 :
  forall i w,
    let r1 := try_accounts browse i total rotation1 maxRetries accs w in
    let r2 := try_accounts browse i total rotation2 maxRetries accs w in
    attempts r1.1.1 = attempts r2.1.1 /\ r1.1.2 = r2.1.2 /\ r1.2 = r2.2.
Proof.
  induction accs as [|acc rest IH]; intros i w; simpl; [done|].
  destruct (try_account browse i acc maxRetries (attempt_numbers maxRetries) w)
    as [[evs1 found] w1].
  destruct found as [cookies|]; [done|].
  specialize (IH (S i) w1). simpl in IH.
  destruct (try_accounts browse (S i) total rotation1 maxRetries rest w1) as [[e1 x1] y1].
  destruct (try_accounts browse (S i) total rotation2 maxRetries rest w1) as [[e2 x2] y2].
  simpl in *. destruct IH as (He & -> & ->). repeat split.
  rewrite !attempts_app, He. f_equal. f_equal.
  by destruct (_ && failover rotation1), (_ && failover rotation2).
Qed.

Lemma terminal_returns_null obs :
  is_terminal (spec_outcome obs) = true -> attemptLogin obs = None.
Proof.
  destruct obs as [|pageContent|content loggedIn cookies clock]; simpl; [done|..].
  - by repeat destruct (_ || _).
  - repeat (destruct (_ || _); [done|]).
    destruct (Nat.eqb _ _); [done|]. by destruct (negb _).
Qed.

(** What the controller takes as a success is what the specification
    classes as [Success]. *)
Lemma succeeded_iff_spec_success a :
  succeeded a = true <-> exists cookies, spec_outcome (seen a) = Success cookies.
Proof.
  unfold succeeded. destruct (seen a) as [|pageContent|content loggedIn cookies clock]; simpl.
  - split; [done|]. by intros [? ?].
  - split; [by repeat destruct (_ || _)|].
    intros [? H]. by repeat destruct (_ || _).
  - destruct (_ || _); [split; [done|by intros [? ?]]|].
    destruct (_ || _); [split; [done|by intros [? ?]]|].
    destruct (validateCookies (List.filter relevant cookies)) eqn:Hvalid; simpl.
    + assert (Hlen : length (List.filter relevant cookies) <> 0%nat).
      { intros Hnil. apply length_zero_iff_nil in Hnil. rewrite Hnil in Hvalid. done. }
      unfold convertCookies. rewrite length_imap.
      destruct (length (List.filter relevant cookies)) as [|n] eqn:Hn; [done|].
      simpl. split; eauto.
    + split; [done|]. destruct (Nat.eqb _ _); by intros [? ?].
Qed.

End RunFacts.

Section ControllerClaims.

(** C2, the code at the failing input: with [failover: false] and a first
    account that fails, the second account is attempted all the same (and
    here its cookies are saved); only the log line of line 629 is left out. *)
Lemma failover_false_still_rotates :
  failover (rotation_block (JBool false) (JNum 1)) = false /\
  summary failover_off_run = [(0%nat, 1, true); (1%nat, 1, false)] /\
  outcome failover_off_run
    = Succeeded (login_of "backup@gmail.com")
                (convertCookies (fun _ => 1700000000000) essential_set) /\
  Forall (fun e => match e with RotationLogged _ => False | _ => True end)
         (events failover_off_run).
Proof.
  split; [reflexivity|]. split; [reflexivity|]. split; [reflexivity|].
  repeat constructor.
Qed.

(** The failover scenario of the specification (section 8), as the code
    runs it: accounts in order, each failed account tried twice, nothing
    after the success, and the third account's cookies saved. *)
Example three_accounts_in_order :
  summary three_accounts_run
    = [(0%nat, 1, true); (0%nat, 2, true); (1%nat, 1, false); (1%nat, 2, false);
       (2%nat, 1, false)] /\
  outcome three_accounts_run
    = Succeeded (login_of "three@gmail.com")
                (convertCookies (fun _ => 1700000000000) essential_set) /\
  exitCode three_accounts_run = 0 /\
  disk three_accounts_run !! COOKIES_OUTPUT_PATH
    = Some (render (convertCookies (fun _ => 1700000000000) essential_set)).
Proof. repeat split; vm_compute; reflexivity. Qed.

End ControllerClaims.

(** * Further facts *)

(** ** What one persist does to the directory *)

Section PersistFrame.

Variable JSON_stringify : list YtDlp.Cookie -> string.

Lemma elem_of_backup_names (dir : Dir) f :
  f ∈ backup_names dir <-> startsWith f "cookies.backup_" = true /\ is_Some (dir !! f).
Proof.
  unfold backup_names.
  by rewrite elem_of_reverse, merge_sort_Permutation, list_elem_of_filter, elem_of_readdirSync.
Qed.

Lemma length_backup_names (dir : Dir) :
  length (backup_names dir)
  = length (filter (fun f => startsWith f "cookies.backup_" = true) (readdirSync dir)).
Proof.
  unfold backup_names. rewrite length_reverse.
  apply Permutation_length, merge_sort_Permutation.
Qed.

Lemma existsSync_true (dir : Dir) f : existsSync dir f = true <-> is_Some (dir !! f).
Proof. unfold existsSync. apply bool_decide_eq_true. Qed.

(** X1.  Whatever the names and the time stamps, a persist onto an existing
    session file leaves at most five files named [cookies.backup_...]. *)
Theorem saveCookies_leaves_at_most_five_backups :
  forall (now : Z) (cookies : list YtDlp.Cookie) (dir : Dir),
    existsSync dir COOKIES_OUTPUT_PATH = true ->
    (length (backup_names (saveCookies JSON_stringify now cookies dir)) <= 5)%nat.
Proof.
  intros now cookies dir [current Hcur]%existsSync_true.
  rewrite (saveCookies_existing _ _ _ _ _ Hcur). cbv zeta.
  set (copied := <[backupPath now := current]> dir).
  set (final := <[COOKIES_OUTPUT_PATH := _]> _).
  rewrite length_backup_names.
  transitivity (length (take 5 (backup_names copied))); [|rewrite length_take; lia].
  apply submseteq_length, NoDup_submseteq.
  { apply NoDup_filter, NoDup_readdirSync. }
  intros f [Hpre Hsome]%list_elem_of_filter. apply elem_of_readdirSync in Hsome.
  assert (f <> COOKIES_OUTPUT_PATH) as Hne by (intros ->; done).
  unfold final in Hsome. rewrite !lookup_insert_ne, unlink_all_lookup in Hsome by done.
  case_decide as Hstale; [by destruct Hsome|].
  assert (f ∈ backup_names copied) as Hin by (by apply elem_of_backup_names).
  rewrite <- (take_drop 5 (backup_names copied)) in Hin.
  by apply elem_of_app in Hin as [Hin|Hin].
Qed.

(** X2.  A persist never touches a file other than the session file and the
    files named [cookies.backup_...]. *)
Theorem saveCookies_leaves_other_files :
  forall (now : Z) (cookies : list YtDlp.Cookie) (dir : Dir) (f : string),
    f <> COOKIES_OUTPUT_PATH ->
    startsWith f "cookies.backup_" = false ->
    saveCookies JSON_stringify now cookies dir !! f = dir !! f.
Proof.
  intros now cookies dir f Hne Hpre.
  destruct (dir !! COOKIES_OUTPUT_PATH) as [current|] eqn:Hcur.
  - rewrite (saveCookies_existing _ _ _ _ _ Hcur). cbv zeta.
    rewrite !lookup_insert_ne, unlink_all_lookup by done.
    rewrite decide_False.
    + apply lookup_insert_ne. intros <-. by rewrite backupPath_is_backup in Hpre.
    + intros Hin.
      assert (f ∈ backup_names (<[backupPath now := current]> dir)) as Hname.
      { rewrite <- (take_drop 5 (backup_names _)). apply elem_of_app. by right. }
      apply elem_of_backup_names in Hname as [Hname _]. congruence.
  - rewrite (saveCookies_fresh _ _ _ _ Hcur). by rewrite !lookup_insert_ne.
Qed.

(** X3.  While at most five backups exist once the copy is made, a persist
    deletes nothing: the directory afterwards is the one before with the
    copy of the old session file added and the session file replaced. *)
Theorem saveCookies_deletes_nothing_up_to_five :
  forall (now : Z) (cookies : list YtDlp.Cookie) (dir : Dir) (current : string),
    dir !! COOKIES_OUTPUT_PATH = Some current ->
    (length (backup_names (<[backupPath now := current]> dir)) <= 5)%nat ->
    saveCookies JSON_stringify now cookies dir
    = <[COOKIES_OUTPUT_PATH := JSON_stringify cookies]> (<[backupPath now := current]> dir).
Proof.
  intros now cookies dir current Hcur Hlen.
  rewrite (saveCookies_existing _ _ _ _ _ Hcur). cbv zeta.
  rewrite drop_ge by done. simpl. apply insert_insert_eq.
Qed.

(** X4.  Without a session file a persist makes no backup and prunes
    nothing, however many old backups lie around: it only creates the
    session file. *)
Theorem saveCookies_first_persist :
  forall (now : Z) (cookies : list YtDlp.Cookie) (dir : Dir),
    dir !! COOKIES_OUTPUT_PATH = None ->
    saveCookies JSON_stringify now cookies dir
    = <[COOKIES_OUTPUT_PATH := JSON_stringify cookies]> dir.
Proof.
  intros now cookies dir Hnone.
  rewrite (saveCookies_fresh _ _ _ _ Hnone). apply insert_insert_eq.
Qed.

End PersistFrame.

Section PersistFrameInstances.

(** The bound of five, on a directory that holds five backups already. *)
Lemma saveCookies_leaves_at_most_five_backups_witness :
  existsSync busy_dir COOKIES_OUTPUT_PATH = true /\
  (length (backup_names (saveCookies render 1700432000000 (session "v6") busy_dir)) <= 5)%nat.
Proof.
  assert (H : existsSync busy_dir COOKIES_OUTPUT_PATH = true) by (vm_compute; reflexivity).
  split; [exact H|].
  exact (saveCookies_leaves_at_most_five_backups render 1700432000000 (session "v6")
           busy_dir H).
Defined.

(** The file [notes.txt] of that directory stays as it is. *)
Lemma saveCookies_leaves_other_files_witness :
  "notes.txt" <> COOKIES_OUTPUT_PATH /\
  startsWith "notes.txt" "cookies.backup_" = false /\
  saveCookies render 1700432000000 (session "v6") busy_dir !! "notes.txt"
  = busy_dir !! "notes.txt".
Proof.
  assert (H1 : "notes.txt" <> COOKIES_OUTPUT_PATH) by (vm_compute; discriminate).
  assert (H2 : startsWith "notes.txt" "cookies.backup_" = false) by reflexivity.
  split; [exact H1|]. split; [exact H2|].
  exact (saveCookies_leaves_other_files render 1700432000000 (session "v6") busy_dir
           "notes.txt" H1 H2).
Defined.

(** The first of the daily runs deletes nothing. *)
Lemma saveCookies_deletes_nothing_up_to_five_witness :
  initial_dir !! COOKIES_OUTPUT_PATH = Some "SID=v0" /\
  (length (backup_names (<[backupPath 1700000000000 := "SID=v0"]> initial_dir)) <= 5)%nat /\
  saveCookies render 1700000000000 (session "v1") initial_dir
  = <[COOKIES_OUTPUT_PATH := render (session "v1")]>
      (<[backupPath 1700000000000 := "SID=v0"]> initial_dir).
Proof.
  assert (H1 : initial_dir !! COOKIES_OUTPUT_PATH = Some "SID=v0") by reflexivity.
  assert (H2 : (length (backup_names (<[backupPath 1700000000000 := "SID=v0"]> initial_dir))
                <= 5)%nat) by (vm_compute; lia).
  split; [exact H1|]. split; [exact H2|].
  exact (saveCookies_deletes_nothing_up_to_five render 1700000000000 (session "v1")
           initial_dir "SID=v0" H1 H2).
Defined.

(** A first persist, on an empty directory. *)
Lemma saveCookies_first_persist_witness :
  (∅ : Dir) !! COOKIES_OUTPUT_PATH = None /\
  saveCookies render 1700000000000 (session "v1") ∅
  = <[COOKIES_OUTPUT_PATH := render (session "v1")]> (∅ : Dir).
Proof.
  assert (H : (∅ : Dir) !! COOKIES_OUTPUT_PATH = None) by reflexivity.
  split; [exact H|].
  exact (saveCookies_first_persist render 1700000000000 (session "v1") ∅ H).
Defined.

End PersistFrameInstances.

(** ** Backup names *)

Section BackupNamesMore.

Lemma length_append s1 s2 :
  String.length (s1 +:+ s2) = (String.length s1 + String.length s2)%nat.
Proof.
  induction s1 as [|c s1 IH]; [done|].
  change (S (String.length (s1 +:+ s2)) = S (String.length s1 + String.length s2)).
  by rewrite IH.
Qed.

Lemma append_cancel_r s x :
  forall y, x +:+ s = y +:+ s -> x = y.
Proof.
  induction x as [|c x IH]; intros [|d y] H.
  - done.
  - apply (f_equal String.length) in H. rewrite !length_append in H. simpl in H. lia.
  - apply (f_equal String.length) in H. rewrite !length_append in H. simpl in H. lia.
  - change (String c (x +:+ s) = String d (y +:+ s)) in H.
    injection H as -> H. by rewrite (IH y H).
Qed.

(** X5.  Persists at different (non-negative) times write their backups to
    different files: the backup name determines the time stamp. *)
Theorem backupPath_determines_time :
  forall a b : Z, 0 <= a -> 0 <= b -> backupPath a = backupPath b -> a = b.
Proof.
  intros a b Ha Hb Heq. rewrite !backupPath_eq in Heq.
  apply (inj (String.append "cookies.backup_")) in Heq.
  apply append_cancel_r in Heq.
  destruct (decimal_spec a Ha) as [_ <-], (decimal_spec b Hb) as [_ <-].
  by rewrite Heq.
Qed.

Lemma backupPath_determines_time_witness :
  0 <= 1700000000000 /\ 0 <= 1700000000000 /\
  backupPath 1700000000000 = backupPath 1700000000000 /\
  1700000000000 = 1700000000000.
Proof.
  assert (H : 0 <= 1700000000000) by lia.
  split; [exact H|]. split; [exact H|]. split; [reflexivity|].
  exact (backupPath_determines_time 1700000000000 1700000000000 H H eq_refl).
Defined.

End BackupNamesMore.

(** ** What the conversion keeps *)

Section ConversionMore.

Lemma string_or_not_empty s d : d <> "" -> string_or s d <> "".
Proof.
  intros Hd. unfold string_or. destruct s as [x|]; [|done].
  destruct (is_empty x) eqn:E; [done|].
  intros ->. done.
Qed.

(** X6.  With a clock that is not before 1970, every converted record has a
    positive [expirationDate], a non-empty [path] and [sameSite], the store
    id [0], and is host-only exactly when its domain has no leading dot. *)
Theorem convertCookie_output_well_formed :
  forall (now : Z) (cookie : Puppeteer.Cookie),
    0 <= now ->
    let c := convertCookie now cookie in
    (0 < YtDlp.expirationDate c)%Q /\
    YtDlp.path c <> "" /\ YtDlp.sameSite c <> "" /\ YtDlp.storeId c = "0" /\
    (YtDlp.hostOnly c = true <-> startsWith (Puppeteer.domain cookie) "." = false).
Proof.
  intros now cookie Hnow c. repeat split.
  - unfold c. simpl. unfold expires_positive.
    destruct (Puppeteer.expires cookie) as [e|]; simpl.
    + destruct (Qle_bool e 0) eqn:E; simpl.
      * unfold default_expiry, Qlt. simpl.
        pose proof (Z.div_pos now 1000 Hnow ltac:(lia)). lia.
      * apply Qnot_le_lt. intros Hle. apply Qle_bool_iff in Hle. congruence.
    + unfold default_expiry, Qlt. simpl.
      pose proof (Z.div_pos now 1000 Hnow ltac:(lia)). lia.
  - by apply string_or_not_empty.
  - by apply string_or_not_empty.
  - unfold c. simpl. by destruct (startsWith _ _).
  - unfold c. simpl. by intros ->.
Qed.

Lemma convertCookie_output_well_formed_witness :
  0 <= 1700000000000 /\
  (0 < YtDlp.expirationDate (convertCookie 1700000000000 session_cookie))%Q /\
  YtDlp.path (convertCookie 1700000000000 session_cookie) <> "" /\
  YtDlp.sameSite (convertCookie 1700000000000 session_cookie) <> "" /\
  YtDlp.storeId (convertCookie 1700000000000 session_cookie) = "0" /\
  (YtDlp.hostOnly (convertCookie 1700000000000 session_cookie) = true <->
   startsWith (Puppeteer.domain session_cookie) "." = false).
Proof.
  assert (H : 0 <= 1700000000000) by lia.
  split; [exact H|].
  exact (convertCookie_output_well_formed 1700000000000 session_cookie H).
Defined.

Lemma convertCookies_map {A} (g : YtDlp.Cookie -> A) (h : Puppeteer.Cookie -> A) :
  (forall t c, g (convertCookie t c) = h c) ->
  forall cookies clock, map g (convertCookies clock cookies) = map h cookies.
Proof.
  intros Hgh. unfold convertCookies.
  induction cookies as [|c cookies IH]; intros clock; [done|].
  rewrite imap_cons. simpl. rewrite Hgh. f_equal. apply (IH (fun i => clock (S i))).
Qed.

(** X7.  The conversion drops, adds and reorders nothing: the output has as
    many records as the input, with the same names, values and domains in
    the same order, whatever the clock. *)
Theorem convertCookies_keeps_every_cookie :
  forall (clock : nat -> Z) (cookies : list Puppeteer.Cookie),
    length (convertCookies clock cookies) = length cookies /\
    map (fun c => (YtDlp.name c, YtDlp.value c, YtDlp.domain c)) (convertCookies clock cookies)
    = map (fun c => (Puppeteer.name c, Puppeteer.value c, Puppeteer.domain c)) cookies.
Proof.
  intros clock cookies. split.
  - unfold convertCookies. apply length_imap.
  - by apply convertCookies_map.
Qed.

End ConversionMore.

(** ** More on the validator *)

Section ValidatorMore.

Lemma validateCookies_true cookies :
  validateCookies cookies = true <->
  (forall name, name ∈ ESSENTIAL_COOKIES -> name ∈ map Puppeteer.name cookies) /\
  (forall c, c ∈ cookies -> Puppeteer.name c ∈ ESSENTIAL_COOKIES -> Puppeteer.value c <> "").
Proof.
  split.
  - intros Htrue. split.
    + intros n Hn. destruct (decide (n ∈ map Puppeteer.name cookies)) as [|Hno]; [done|].
      assert (validateCookies cookies = false) as Hf; [|congruence].
      apply validateCookies_false. left. by exists n.
    + intros c Hin Hname Hempty.
      assert (validateCookies cookies = false) as Hf; [|congruence].
      apply validateCookies_false. right. by exists c.
  - intros [Hall Hfull]. destruct (validateCookies cookies) eqn:E; [done|].
    apply validateCookies_false in E as [(n & Hn & Hno)|(c & Hin & Hname & Hempty)].
    + by apply Hall in Hn.
    + by destruct (Hfull c Hin Hname).
Qed.

(** X8.  The verdict of the validator does not depend on the order in which
    the browser lists the cookies. *)
Theorem validateCookies_order_independent :
  forall cookies cookies' : list Puppeteer.Cookie,
    cookies ≡ₚ cookies' -> validateCookies cookies = validateCookies cookies'.
Proof.
  assert (Hone : forall cs cs' : list Puppeteer.Cookie,
             cs ≡ₚ cs' -> validateCookies cs = true -> validateCookies cs' = true).
  { intros cs cs' Hperm [Hall Hfull]%validateCookies_true. apply validateCookies_true. split.
    - intros n Hn. apply Hall in Hn. rewrite map_as_fmap in *. by rewrite <- Hperm.
    - intros c Hc. apply Hfull. by rewrite Hperm. }
  intros cookies cookies' Hperm.
  destruct (validateCookies cookies) eqn:E, (validateCookies cookies') eqn:E'; try done.
  - by rewrite (Hone _ _ Hperm E) in E'.
  - symmetry in Hperm. by rewrite (Hone _ _ Hperm E') in E.
Qed.

Lemma validateCookies_order_independent_witness :
  essential_set ≡ₚ reverse essential_set /\
  validateCookies essential_set = validateCookies (reverse essential_set).
Proof.
  assert (H : essential_set ≡ₚ reverse essential_set) by (symmetry; apply reverse_Permutation).
  split; [exact H|].
  exact (validateCookies_order_independent essential_set (reverse essential_set) H).
Defined.

Lemma valid_set_has_six cookies :
  validateCookies cookies = true -> (6 <= length cookies)%nat.
Proof.
  intros [Hall _]%validateCookies_true.
  assert (Hnodup : NoDup ESSENTIAL_COOKIES).
  { apply (bool_decide_unpack _). vm_compute. exact I. }
  pose proof (submseteq_length _ _ (NoDup_submseteq _ _ Hnodup Hall)) as Hlen.
  rewrite length_map in Hlen. exact Hlen.
Qed.

(** X9.  A set that the validator accepts holds at least six cookies. *)
Theorem validateCookies_needs_six_cookies :
  forall cookies : list Puppeteer.Cookie,
    validateCookies cookies = true -> (6 <= length cookies)%nat.
Proof. intros cookies Hvalid. by apply valid_set_has_six. Qed.

Lemma validateCookies_needs_six_cookies_witness :
  validateCookies essential_set = true /\ (6 <= length essential_set)%nat.
Proof.
  assert (H : validateCookies essential_set = true) by reflexivity.
  split; [exact H|]. exact (validateCookies_needs_six_cookies essential_set H).
Defined.

End ValidatorMore.

(** ** What a login attempt returns *)

Section AttemptMore.

Lemma attemptLogin_some_inv obs l :
  attemptLogin obs = Some l ->
  exists content loggedIn cookies clock,
    obs = Submitted content loggedIn cookies clock /\
    (includes "2-Step Verification" content || includes "Verify it" content
     || includes "confirm your identity" content) = false /\
    (includes "Wrong password" content || includes "incorrect" content) = false /\
    validateCookies (List.filter relevant cookies) = true /\
    l = convertCookies clock (List.filter relevant cookies).
Proof.
  destruct obs as [|pageContent|content loggedIn cookies clock]; simpl; [done|..].
  - by repeat destruct (_ || _).
  - destruct (includes "2-Step Verification" content || _ || _) eqn:E1; [done|].
    destruct (includes "Wrong password" content || _) eqn:E2; [done|].
    destruct (validateCookies (List.filter relevant cookies)) eqn:E3; simpl; [|done].
    intros [= <-]. by exists content, loggedIn, cookies, clock.
Qed.

Lemma attemptLogin_essential_names :
  forall (obs : Observation) (l : list YtDlp.Cookie),
    attemptLogin obs = Some l ->
    forall name, name ∈ ESSENTIAL_COOKIES ->
      exists c, c ∈ l /\ YtDlp.name c = name /\ YtDlp.value c <> "".
Proof.
  intros obs l (content & loggedIn & cookies & clock & _ & _ & _ & Hvalid & ->)%attemptLogin_some_inv.
  set (kept := List.filter relevant cookies) in *.
  apply validateCookies_true in Hvalid as [Hall Hfull].
  intros n Hn. pose proof (Hall n Hn) as Hin.
  rewrite map_as_fmap in Hin. apply list_elem_of_fmap in Hin as (pc & -> & Hpc).
  pose proof Hpc as [i Hi]%list_elem_of_lookup.
  exists (convertCookie (clock i) pc). split; [|split; [done|]].
  - unfold convertCookies.
    apply (elem_of_lookup_imap_2 (fun i cookie => convertCookie (clock i) cookie) _ _ _ Hi).
  - simpl. by apply Hfull.
Qed.

(** X11.  Whatever [attemptLogin] returns is a complete session: at least
    six cookies, every essential name carried with a non-empty value, and
    only cookies of the YouTube and Google domains.  So the test
    [cookies.length > 0] of line 611 never turns a returned array down. *)
Theorem attemptLogin_result_is_complete :
  forall (obs : Observation) (l : list YtDlp.Cookie),
    attemptLogin obs = Some l ->
    (6 <= length l)%nat /\
    accepted (Some l) = true /\
    (forall name, name ∈ ESSENTIAL_COOKIES ->
       exists c, c ∈ l /\ YtDlp.name c = name /\ YtDlp.value c <> "") /\
    (forall c, c ∈ l ->
       includes "youtube.com" (YtDlp.domain c) || includes "google.com" (YtDlp.domain c)
       || includes ".google." (YtDlp.domain c) = true).
Proof.
  intros obs l Hsome. pose proof (attemptLogin_essential_names obs l Hsome) as Hnames.
  apply attemptLogin_some_inv in Hsome
    as (content & loggedIn & cookies & clock & _ & _ & _ & Hvalid & ->).
  set (kept := List.filter relevant cookies) in *.
  assert (Hlen : (6 <= length (convertCookies clock kept))%nat).
  { unfold convertCookies. rewrite length_imap. by apply valid_set_has_six. }
  split; [done|]. split; [|split; [done|]].
  - simpl. apply Nat.ltb_lt. lia.
  - intros c Hc. unfold convertCookies in Hc.
    apply elem_of_lookup_imap_1 in Hc as (i & pc & -> & Hi).
    assert (pc ∈ kept) as Hpc by (apply list_elem_of_lookup; eauto).
    apply list_elem_of_In, filter_In in Hpc as [_ Hrel]. exact Hrel.
Qed.

(** The array returned on [logged_in_page]. *)
Lemma attemptLogin_result_is_complete_witness :
  attemptLogin logged_in_page = Some harvested /\
  (6 <= length harvested)%nat /\
  accepted (Some harvested) = true /\
  (forall name, name ∈ ESSENTIAL_COOKIES ->
     exists c, c ∈ harvested /\ YtDlp.name c = name /\ YtDlp.value c <> "") /\
  (forall c, c ∈ harvested ->
     includes "youtube.com" (YtDlp.domain c) || includes "google.com" (YtDlp.domain c)
     || includes ".google." (YtDlp.domain c) = true).
Proof.
  assert (H : attemptLogin logged_in_page = Some harvested) by reflexivity.
  split; [exact H|].
  exact (attemptLogin_result_is_complete logged_in_page harvested H).
Defined.

End AttemptMore.

(** ** More on the run *)

Section RunMore.

Context {World : Type}.
Variable browse : Value -> Z -> World -> Observation * World.
Variable now : World -> Z.
Variable JSON_stringify : list YtDlp.Cookie -> string.

Lemma saveCookies_session_file t cookies (dir : Dir) :
  saveCookies JSON_stringify t cookies dir !! COOKIES_OUTPUT_PATH
  = Some (JSON_stringify cookies).
Proof.
  destruct (saveCookies_ops_split JSON_stringify t cookies dir) as (before & Hops & _).
  unfold saveCookies, run_ops. rewrite Hops, foldl_app. simpl. apply lookup_insert_eq.
Qed.

Lemma account_run_found i acc maxRetries k tries cookies :
  account_run i acc maxRetries k tries (Some cookies) ->
  exists pre a, tries = (pre ++ [a])%list /\ account a = acc /\
                attemptLogin (seen a) = Some cookies.
Proof.
  remember (Some cookies) as found eqn:Hf.
  induction 1 as [k Hk|k obs c Hk Hobs Hacc|k obs later found Hk Hobs Hrun IH].
  - done.
  - injection Hf as ->. by exists [], {| index := i; account := acc; number := k; seen := obs |}.
  - destruct (IH Hf) as (pre & a & -> & Ha & Hlogin).
    by exists ({| index := i; account := acc; number := k; seen := obs |} :: pre), a.
Qed.

Lemma pool_run_found maxRetries i accs tries acc cookies :
  pool_run maxRetries i accs tries (Some (acc, cookies)) ->
  exists pre a, tries = (pre ++ [a])%list /\ account a = acc /\
                attemptLogin (seen a) = Some cookies.
Proof.
  remember (Some (acc, cookies)) as result eqn:Hr.
  induction 1 as [i|i acc' rest tries c Hrun|i acc' rest tries later result Hrun Hpool IH].
  - done.
  - injection Hr as -> ->. by eapply account_run_found.
  - destruct (IH Hr) as (pre & a & -> & Ha & Hlogin).
    exists (tries ++ pre)%list, a. by rewrite app_assoc.
Qed.




End RunMore.


Section RunEdge.

Context {World : Type}.
Variable browse : Value -> Z -> World -> Observation * World.
Variable now : World -> Z.
Variable JSON_stringify : list YtDlp.Cookie -> string.

Lemma backoffs_app l1 l2 : backoffs (l1 ++ l2) = (backoffs l1 ++ backoffs l2)%list.
Proof. apply omap_app. Qed.



End RunEdge.


(** ** Exceptions that leave [attemptLogin] *)

Section AbortFacts.

Lemma string_email_dec account : string_email account \/ ~ string_email account.
Proof.
  unfold string_email. destruct (prop account "email") as [[]|];
    try (right; intros [s Hs]; discriminate Hs).
  left. by eexists.
Qed.

Lemma with_screenshot_string {A} account (k : Completion A) :
  string_email account -> with_screenshot account k = k.
Proof. intros [s Hs]. unfold with_screenshot, screenshot_tag. by rewrite Hs. Qed.

Lemma with_screenshot_thrown {A} account (k : Completion A) :
  ~ string_email account -> with_screenshot account k = Thrown.
Proof.
  intros Hno. unfold with_screenshot, screenshot_tag.
  destruct (prop account "email") as [v|] eqn:Hv; [|done].
  destruct v; try done. destruct Hno. by eexists.
Qed.

Lemma attemptLogin_exit_string_email account obs :
  string_email account -> attemptLogin_exit account obs = Normal (attemptLogin obs).
Proof.
  intros Hs. destruct obs as [|pageContent|page loggedIn cookies clock]; simpl;
    rewrite ?with_screenshot_string by done.
  - done.
  - by repeat destruct (_ || _).
  - destruct (_ || _); [done|]. destruct (_ || _); [done|].
    destruct loggedIn; simpl; rewrite ?with_screenshot_string by done; simpl;
      by destruct (validateCookies _).
Qed.

Lemma attemptLogin_exit_no_email account obs :
  ~ string_email account ->
  attemptLogin_exit account obs
  = if takes_screenshot obs then Thrown else Normal (attemptLogin obs).
Proof.
  intros Hno. destruct obs as [|pageContent|page loggedIn cookies clock]; simpl;
    rewrite ?with_screenshot_thrown by done.
  - done.
  - done.
  - destruct (_ || _); [done|]. destruct (_ || _); [done|].
    destruct loggedIn; simpl; rewrite ?with_screenshot_thrown by done; simpl; [|done].
    by destruct (validateCookies _).
Qed.


(** X16.  An exception leaves [attemptLogin] exactly when the account's
    [email] is not a string and the attempt ends on one of the exits that
    take a screenshot (a caught error, no password field, a verification
    page, a failed login probe, an incomplete cookie set); on every other
    call it returns what the login attempt gives. *)
Theorem attemptLogin_throws_iff :
  forall (account : Value) (obs : Observation),
    (attemptLogin_exit account obs = Thrown <->
     ~ string_email account /\ takes_screenshot obs = true) /\
    (attemptLogin_exit account obs <> Thrown ->
     attemptLogin_exit account obs = Normal (attemptLogin obs)).
Proof.
  intros account obs. destruct (string_email_dec account) as [Hs|Hno].
  - rewrite (attemptLogin_exit_string_email _ _ Hs). split; [|done].
    split; [done|]. by intros [Hno _].
  - rewrite (attemptLogin_exit_no_email _ _ Hno).
    destruct (takes_screenshot obs); split; try done.
    split; [done|]. by intros [_ ?].
Qed.

Context {World : Type}.
Variable browse : Value -> Z -> World -> Observation * World.
Variable now : World -> Z.
Variable JSON_stringify : list YtDlp.Cookie -> string.








End AbortFacts.





(** ** The cron wrapper *)

Section CronFacts.

Context {World : Type}.
Variable browse : Value -> Z -> World -> Observation * World.
Variable now : World -> Z.
Variable JSON_stringify : list YtDlp.Cookie -> string.

Lemma exit_status_zero file (dir : Dir) w :
  exit_status (refreshCookies_exit browse now JSON_stringify file dir w) = 0 <->
  exists r acc cookies,
    refreshCookies_exit browse now JSON_stringify file dir w = Returned r /\
    outcome r = Succeeded acc cookies /\
    disk r !! COOKIES_OUTPUT_PATH = Some (JSON_stringify cookies).
Proof.
  unfold refreshCookies_exit.
  destruct (loadAccountsConfig file) as [cfg|].
  - destruct (try_accounts_exit browse 0 _ _ _ _ w) as [[evs result] w1].
    destruct result as [[[acc cookies]|]|]; simpl.
    + split; [intros _|done]. eexists _, acc, cookies. split; [done|]. split; [done|].
      apply saveCookies_session_file.
    + split; [done|]. by intros (r & acc & cookies & [= <-] & ? & _).
    + split; [done|]. by intros (r & acc & cookies & ? & _).
  - simpl. split; [done|]. by intros (r & acc & cookies & [= <-] & ? & _).
Qed.

Lemma returned_means_config_found file (dir : Dir) w r acc cookies :
  refreshCookies_exit browse now JSON_stringify file dir w = Returned r ->
  outcome r = Succeeded acc cookies ->
  config_found file = true.
Proof.
  unfold refreshCookies_exit. destruct file as [| |config]; simpl; try done.
  all: by intros [= <-].
Qed.

(** X20.  The cron wrapper exits with status 0 exactly when it could
    change to the project directory, found [node], found or installed
    [node_modules], and the refresh script ended as a success with the
    session file written; the result of the validation test it runs
    afterwards has no part in the status.  The validation test is started
    exactly on a status 0. *)
Theorem cron_status_zero_iff_session_saved :
  forall (host : Host) (file : ConfigFile) (dir : Dir) (w : World),
    let e := refreshCookies_exit browse now JSON_stringify file dir w in
    let job := refresh_cookies_sh host file (exit_status e) in
    (status job = 0 <->
     cd_ok host = true /\ node_found host = true /\
     (node_modules_found host = true \/ npm_install_ok host = true) /\
     exists r acc cookies,
       e = Returned r /\ outcome r = Succeeded acc cookies /\
       disk r !! COOKIES_OUTPUT_PATH = Some (JSON_stringify cookies)) /\
    (Validation ∈ started job <-> status job = 0).
Proof.
  intros host file dir w e job.
  pose proof (exit_status_zero file dir w) as Hzero. fold e in Hzero.
  assert (Hfound : exit_status e = 0 -> config_found file = true).
  { intros H0. apply Hzero in H0 as (r & acc & cookies & Hr & Hout & _).
    by eapply returned_means_config_found. }
  assert (Hstarted : forall (install : list Started) (b : bool),
             Validation ∉ install ->
             (Validation ∈ (install ++ [Refresh b]
                            ++ (if exit_status e =? 0 then [Validation] else []))%list
              <-> exit_status e = 0)).
  { intros install b Hnot. rewrite !elem_of_app, list_elem_of_singleton.
    destruct (Z.eqb_spec (exit_status e) 0) as [H0|Hn0].
    - rewrite list_elem_of_singleton. intuition.
    - rewrite elem_of_nil. intuition discriminate. }
  assert (Hnil : Validation ∉ @nil Started) by apply not_elem_of_nil.
  assert (Hnpm : Validation ∉ [NpmInstall]).
  { rewrite list_elem_of_singleton. discriminate. }
  assert (Hnone : forall l : list Started, Validation ∉ l -> Validation ∈ l <-> 1 = 0).
  { intros l Hl. split; [by intros ?%Hl|intros ?; lia]. }
  unfold job, refresh_cookies_sh.
  destruct (cd_ok host); simpl.
  2: { split; [split; [intros ?; lia|by intros (? & _)]|by apply Hnone]. }
  destruct (node_found host); simpl.
  2: { split; [split; [intros ?; lia|by intros (_ & ? & _)]|by apply Hnone]. }
  destruct (node_modules_found host), (npm_install_ok host); simpl.
  4: { split; [split; [intros ?; lia|by intros (_ & _ & [?|?] & _)]|by apply Hnone]. }
  all: destruct (config_found file) eqn:Hcfg; simpl.
  all: try (split; [split; [intros ?; lia
                           |intros (_ & _ & _ & Hex); apply Hzero in Hex;
                            apply Hfound in Hex; discriminate]|by apply Hnone]).
  all: split; [rewrite <- Hzero; intuition|].
  all: first [exact (Hstarted [] _ Hnil) | exact (Hstarted [NpmInstall] _ Hnpm)].
Qed.

End CronFacts.

(** ** Time stamps *)

Section Utilities.

Lemma append_assoc (a b c : string) : (a +:+ b) +:+ c = a +:+ (b +:+ c).
Proof.
  induction a as [|x a IH]; [done|].
  change (String x ((a +:+ b) +:+ c) = String x (a +:+ (b +:+ c))). by rewrite IH.
Qed.

Lemma substring_all (s : string) : String.substring 0 (String.length s) s = s.
Proof. induction s as [|c s IH]; simpl; [done|]. by rewrite IH. Qed.

Lemma substring_head (p q : string) :
  String.substring 0 (String.length p) (p +:+ q) = p.
Proof.
  induction p as [|c p IH].
  - by destruct q.
  - change (String.substring 0 (S (String.length p)) (String c (p +:+ q)) = String c p).
    simpl. by rewrite IH.
Qed.

Lemma replace_cons (c : ascii) (rest pattern replacement : string) :
  replace (String c rest) pattern replacement
  = if String.prefix pattern (String c rest)
    then replacement +:+ String.substring (String.length pattern)
                           (String.length (String c rest) - String.length pattern)
                           (String c rest)
    else String c (replace rest pattern replacement).
Proof. reflexivity. Qed.

Lemma prefix_T (c : ascii) (s : string) :
  String.prefix "T" (String c s) = if ascii_dec "T" c then true else false.
Proof.
  change (String.prefix "T" (String c s))
    with (if ascii_dec "T" c then String.prefix "" s else false).
  destruct (ascii_dec "T" c); [by destruct s|done].
Qed.

Lemma replace_first_T (d x : string) :
  includes "T" d = false ->
  replace (d +:+ "T" +:+ x) "T" " " = d +:+ " " +:+ x.
Proof.
  induction d as [|c d IH]; intros Hno.
  - change ("" +:+ "T" +:+ x) with (String "T" x).
    change ("" +:+ " " +:+ x) with (String " " x).
    rewrite replace_cons, prefix_T.
    destruct (ascii_dec "T" "T") as [_|Hne]; [|done].
    change (String.length (String "T" x) - String.length "T")%nat
      with (S (String.length x) - 1)%nat.
    replace (S (String.length x) - 1)%nat with (String.length x) by lia.
    change (String.substring (String.length "T") (String.length x) (String "T" x))
      with (String.substring 0 (String.length x) x).
    by rewrite substring_all.
  - change (includes "T" (String c d))
      with (String.prefix "T" (String c d) || includes "T" d) in Hno.
    apply orb_false_elim in Hno as [Hc Hd]. rewrite prefix_T in Hc.
    change (String c d +:+ "T" +:+ x) with (String c (d +:+ "T" +:+ x)).
    change (String c d +:+ " " +:+ x) with (String c (d +:+ " " +:+ x)).
    rewrite replace_cons, prefix_T.
    destruct (ascii_dec "T" c); [done|]. by rewrite (IH Hd).
Qed.

(** X22.  On an ISO time stamp (a date of ten characters, [T], a time of
    day of eight characters, and the rest) [getTimestamp] gives the date, a
    blank and the time of day: fractions of a second and the zone are cut
    off. *)
Theorem getTimestamp_is_date_blank_time :
  forall (date time rest : string),
    String.length date = 10%nat ->
    String.length time = 8%nat ->
    includes "T" date = false ->
    getTimestamp (date +:+ "T" +:+ time +:+ rest) = date +:+ " " +:+ time.
Proof.
  intros date time rest Hd Ht Hno. unfold getTimestamp.
  rewrite (replace_first_T _ _ Hno).
  replace (date +:+ " " +:+ time +:+ rest) with ((date +:+ " " +:+ time) +:+ rest)
    by (by rewrite !append_assoc).
  replace 19%nat with (String.length (date +:+ " " +:+ time)).
  - apply substring_head.
  - rewrite !length_append, Hd, Ht. reflexivity.
Qed.

(** A time stamp of 3 November 2026. *)
Lemma getTimestamp_is_date_blank_time_witness :
  getTimestamp "2026-11-03T04:41:02.254Z" = "2026-11-03 04:41:02".
Proof.
  apply (getTimestamp_is_date_blank_time "2026-11-03" "04:41:02" ".254Z"); reflexivity.
Defined.

End Utilities.

(** ** Backups and the clock *)

(** The listing of lines 194-197 follows the names, not the order in which
    the backups were made: when the clock is set back between two persists,
    the backup just made has the lowest name and is the one deleted. *)
Example backups_lost_when_clock_set_back :
  (backups (persist_all render initial_dir set_back_runs)).*2
  = ["SID=v4"; "SID=v3"; "SID=v2"; "SID=v1"; "SID=v0"].
Proof. vm_compute. reflexivity. Qed.

(** ** The process, for every value of [maxRetries] *)

Section ProcessFacts.

Lemma within_floor (k : Z) (x : Q) : within k x = true <-> k <= Qfloor x.
Proof.
  unfold within. rewrite Qle_bool_iff. split; intros H.
  - apply Qfloor_resp_le in H. by rewrite Qfloor_Z in H.
  - eapply Qle_trans; [|apply Qfloor_le]. by rewrite <- Zle_Qle.
Qed.

(** The attempt numbers of the loop of line 606 are those that pass its
    test. *)
Lemma attempt_numbers_within (k : Z) (x : Q) :
  k ∈ attempt_numbers (Qfloor x) <-> 1 <= k /\ within k x = true.
Proof.
  rewrite within_floor. unfold attempt_numbers. rewrite map_as_fmap, list_elem_of_fmap.
  split.
  - intros (n & -> & Hn). apply elem_of_seq in Hn. lia.
  - intros [H1 Hk]. exists (Z.to_nat k). split; [lia|]. apply elem_of_seq. lia.
Qed.

Lemma below_plain (k m : Z) : below k (inject_Z m) = (k <? m).
Proof.
  unfold below. destruct (Z.ltb_spec k m) as [Hlt|Hge].
  - apply negb_true_iff. destruct (Qle_bool (inject_Z m) (inject_Z k)) eqn:E; [|done].
    apply Qle_bool_iff in E. rewrite <- Zle_Qle in E. lia.
  - apply negb_false_iff, Qle_bool_iff. by rewrite <- Zle_Qle.
Qed.

Lemma not_thrown_returns (a : Login) :
  thrown a = false ->
  attemptLogin_exit (account a) (seen a) = Normal (attemptLogin (seen a)).
Proof.
  unfold thrown. destruct (string_email_dec (account a)) as [Hs|Hno].
  - by rewrite (attemptLogin_exit_string_email _ _ Hs).
  - rewrite (attemptLogin_exit_no_email _ _ Hno). by destruct (takes_screenshot (seen a)).
Qed.

Lemma attemptLogin_exit_normal account obs cookies :
  attemptLogin_exit account obs = Normal cookies -> cookies = attemptLogin obs.
Proof.
  intros H.
  pose proof (not_thrown_returns {| index := 0; account := account; number := 0; seen := obs |})
    as Hr. unfold thrown in Hr. simpl in Hr. rewrite H in Hr. by injection (Hr eq_refl).
Qed.


Lemma thrown_not_taken (a : Login) : thrown a = true -> taken a = false.
Proof. unfold thrown, taken. by destruct (attemptLogin_exit _ _). Qed.

(** What the specification classes as [Success] is what [attemptLogin]
    returns, when it returns. *)
Lemma spec_success_returns obs cookies :
  spec_outcome obs = Success cookies ->
  attemptLogin obs = Some cookies /\ accepted (Some cookies) = true.
Proof.
  intros Hspec.
  assert (Hsucc : succeeded {| index := 0; account := JNull; number := 0; seen := obs |} = true).
  { apply succeeded_iff_spec_success. by exists cookies. }
  unfold succeeded in Hsucc. simpl in Hsucc.
  destruct obs as [|pageContent|content loggedIn raw clock]; simpl in *; [done|..].
  - by repeat destruct (_ || _).
  - destruct (_ || _); [done|]. destruct (_ || _); [done|].
    destruct (Nat.eqb _ _); [done|].
    destruct (validateCookies (List.filter relevant raw)); simpl in *; [|done].
    by injection Hspec as <-.
Qed.

Lemma last_or_before {A} (l1 l2 pre : list A) (a b : A) :
  (l1 ++ a :: l2 = pre ++ [b])%list -> (l2 = [] /\ a = b) \/ a ∈ pre.
Proof.
  intros Heq. destruct l2 as [|c l2 _] using rev_ind.
  - left. split; [done|]. by apply app_inj_tail in Heq as [_ ?].
  - right. change (l1 ++ a :: l2 ++ [c])%list with (l1 ++ (a :: l2) ++ [c])%list in Heq.
    rewrite app_assoc in Heq. apply app_inj_tail in Heq as [<- _].
    apply elem_of_app. right. by left.
Qed.

Context {World : Type}.
Variable browse : Value -> Z -> World -> Observation * World.
Variable now : World -> Z.
Variable JSON_stringify : list YtDlp.Cookie -> string.
Variable ToNumber : Value -> Q.

(** The inner loop against the loop over calls that return: the same
    attempts, up to the one that throws. *)
Lemma try_account_process_returns i acc (x : Q) (m : Z) attempts_left :
  forall w evs found w',
    try_account_process browse i acc x attempts_left w = (evs, found, w') ->
    exists evs0 found0 w0,
      try_account browse i acc m attempts_left w = (evs0, found0, w0) /\
      match found with
      | Normal f =>
          attempts evs = attempts evs0 /\ f = found0 /\ w' = w0 /\
          Forall (fun a => thrown a = false) (attempts evs)
      | Thrown =>
          exists pre a rest,
            attempts evs = (pre ++ [a])%list /\ attempts evs0 = (pre ++ a :: rest)%list /\
            thrown a = true /\ Forall (fun a => thrown a = false) pre
      end.
Proof.
  induction attempts_left as [|k later IH]; intros w evs found w'; simpl.
  - intros [= <- <- <-]. by eexists _, _, _.
  - destruct (browse acc k w) as [obs w1] eqn:Hbrowse.
    set (this := {| index := i; account := acc; number := k; seen := obs |}).
    destruct (attemptLogin_exit acc obs) as [cookies|] eqn:Hexit.
    + assert (Hthis : thrown this = false) by (unfold thrown; simpl; by rewrite Hexit).
      apply attemptLogin_exit_normal in Hexit as ->.
      destruct (accepted (attemptLogin obs)).
      * intros [= <- <- <-]. eexists _, _, _. split; [done|]. simpl.
        repeat split. by constructor.
      * destruct (try_account_process browse i acc x later w1) as [[evs' found'] w2] eqn:Hrec.
        intros [= <- <- <-].
        destruct (IH _ _ _ _ Hrec) as (evs0 & found0 & w0 & -> & Hrel).
        eexists _, _, _. split; [done|]. simpl. rewrite !attempts_app.
        replace (attempts (if below k x then [Backoff i k] else []))
          with (@nil Login) by (by destruct (below k x)).
        replace (attempts (if k <? m then [Backoff i k] else []))
          with (@nil Login) by (by destruct (k <? m)).
        simpl. destruct found' as [f|].
        -- destruct Hrel as (-> & -> & -> & Hall). repeat split. by constructor.
        -- destruct Hrel as (pre & a & rest & -> & -> & Ha & Hpre).
           exists (this :: pre), a, rest. repeat split; [done|]. by constructor.
    + assert (Hthis : thrown this = true) by (unfold thrown; simpl; by rewrite Hexit).
      intros [= <- <- <-].
      destruct (accepted (attemptLogin obs)).
      * eexists _, _, _. split; [done|]. exists [], this, []. by repeat split.
      * destruct (try_account browse i acc m later w1) as [[e f] w2].
        eexists _, _, _. split; [done|]. simpl. rewrite attempts_app.
        replace (attempts (if k <? m then [Backoff i k] else []))
          with (@nil Login) by (by destruct (k <? m)).
        exists [], this, (attempts e). by repeat split.
Qed.

Lemma try_accounts_process_returns total rotation (x : Q) accs :
  forall i w evs result w',
    try_accounts_process browse i total rotation x accs w = (evs, result, w') ->
    exists evs0 result0 w0,
      try_accounts browse i total rotation (Qfloor x) accs w = (evs0, result0, w0) /\
      match result with
      | Normal r =>
          attempts evs = attempts evs0 /\ r = result0 /\ w' = w0 /\
          Forall (fun a => thrown a = false) (attempts evs)
      | Thrown =>
          exists pre a rest,
            attempts evs = (pre ++ [a])%list /\ attempts evs0 = (pre ++ a :: rest)%list /\
            thrown a = true /\ Forall (fun a => thrown a = false) pre
      end.
Proof.
  induction accs as [|acc rest IH]; intros i w evs result w'; simpl.
  - intros [= <- <- <-]. by eexists _, _, _.
  - destruct (try_account_process browse i acc x (attempt_numbers (Qfloor x)) w)
      as [[evs1 found] w1] eqn:Hinner.
    destruct (try_account_process_returns i acc x (Qfloor x) _ _ _ _ _ Hinner)
      as (e1 & f1 & v1 & -> & Hrel).
    set (rotate := if (Z.of_nat i <? Z.of_nat total - 1) && failover rotation
                   then [RotationLogged i] else []).
    assert (Hrot : attempts rotate = []) by (unfold rotate; by destruct (_ && _)).
    destruct found as [[cookies|]|].
    + destruct Hrel as (He & <- & <- & Hall). intros [= <- <- <-].
      eexists _, _, _. split; [done|]. by repeat split.
    + destruct Hrel as (He & <- & <- & Hall).
      destruct (try_accounts_process browse (S i) total rotation x rest w1)
        as [[evs2 result2] w2] eqn:Hrest.
      intros [= <- <- <-].
      destruct (IH _ _ _ _ _ Hrest) as (e2 & r2 & v2 & -> & Hrel2).
      eexists _, _, _. split; [done|]. rewrite !attempts_app, Hrot, He. simpl.
      destruct result2 as [r|].
      * destruct Hrel2 as (-> & -> & -> & Hall2). repeat split.
        apply Forall_app. split; [by rewrite <- He|done].
      * destruct Hrel2 as (pre & a & more & -> & -> & Ha & Hpre).
        exists (attempts e1 ++ pre)%list, a, more.
        rewrite <- !app_assoc. repeat split; [done|].
        apply Forall_app. split; [by rewrite <- He|done].
    + destruct Hrel as (pre & a & more & Hevs & He & Ha & Hpre). intros [= <- <- <-].
      destruct f1 as [c|].
      * eexists _, _, _. split; [done|]. by exists pre, a, more.
      * destruct (try_accounts browse (S i) total rotation (Qfloor x) rest v1)
          as [[e2 r2] v2].
        eexists _, _, _. split; [done|]. rewrite !attempts_app, Hrot, He. simpl.
        exists pre, a, (more ++ attempts e2)%list. rewrite <- app_assoc. by repeat split.
Qed.

(** What the process amounts to: the attempts of the loops over calls that
    return, cut after the first call that throws. *)
Lemma process_shape file cfg (dir : Dir) w :
  loadAccountsConfig file = Some cfg ->
  let p := refreshCookies_process browse now JSON_stringify ToNumber file dir w in
  let m := Qfloor (ToNumber (maxRetriesPerAccount (rotation cfg))) in
  exists evs0 result0 w0,
    try_accounts browse 0 (length (accounts cfg)) (rotation cfg) m (accounts cfg) w
    = (evs0, result0, w0) /\
    ((Forall (fun a => thrown a = false) (attempts (trace p)) /\
      attempts (trace p) = attempts evs0 /\
      p = Returned
            match result0 with
            | Some (acc, cookies) =>
                {| outcome := Succeeded acc cookies; exitCode := 0; events := trace p;
                   disk := saveCookies JSON_stringify (now w0) cookies dir |}
            | None =>
                {| outcome := Exhausted; exitCode := 1; events := trace p; disk := dir |}
            end) \/
     (exists pre a rest,
        attempts (trace p) = (pre ++ [a])%list /\ attempts evs0 = (pre ++ a :: rest)%list /\
        thrown a = true /\ Forall (fun a => thrown a = false) pre /\
        p = Fatal (trace p) dir)).
Proof.
  intros Hload p m. unfold p, refreshCookies_process. rewrite Hload. fold m.
  destruct (try_accounts_process browse 0 _ _ _ _ w) as [[evs result] w1] eqn:Hrun.
  destruct (try_accounts_process_returns _ _ _ _ _ _ _ _ _ Hrun)
    as (evs0 & result0 & w0 & Hold & Hrel).
  exists evs0, result0, w0. split; [done|].
  destruct result as [[[acc cookies]|]|].
  - destruct Hrel as (He & <- & <- & Hall). left. by repeat split.
  - destruct Hrel as (He & <- & <- & Hall). left. by repeat split.
  - right. destruct Hrel as (pre & a & rest & ? & ? & ? & ?). by exists pre, a, rest.
Qed.

Lemma process_members file cfg (dir : Dir) w a :
  loadAccountsConfig file = Some cfg ->
  a ∈ attempts (trace (refreshCookies_process browse now JSON_stringify ToNumber file dir w)) ->
  accounts cfg !! index a = Some (account a) /\
  1 <= number a <= Qfloor (ToNumber (maxRetriesPerAccount (rotation cfg))).
Proof.
  intros Hload Ha.
  destruct (process_shape file cfg dir w Hload) as (evs0 & result0 & w0 & Hold & Hshape).
  apply try_accounts_run in Hold.
  assert (Hin : a ∈ attempts evs0).
  { destruct Hshape as [(_ & <- & _)|(pre & b & rest & Hlast & -> & _)]; [done|].
    rewrite Hlast in Ha. change (pre ++ b :: rest)%list with (pre ++ [b] ++ rest)%list.
    rewrite app_assoc. apply elem_of_app. by left. }
  destruct (pool_run_members _ _ _ _ _ _ Hold Hin) as (_ & Hacc & Hnum).
  by rewrite Nat.sub_0_r in Hacc.
Qed.

(** The process with [plain_number] is the process of [refreshCookies_exit]. *)
Lemma try_account_exit_process i acc (m : Z) attempts_left :
  forall w,
    try_account_process browse i acc (inject_Z m) attempts_left w
    = try_account_exit browse i acc m attempts_left w.
Proof.
  induction attempts_left as [|k later IH]; intros w; simpl; [done|].
  destruct (browse acc k w) as [obs w1]. destruct (attemptLogin_exit acc obs); [|done].
  destruct (accepted a); [done|]. by rewrite IH, below_plain.
Qed.

Lemma try_accounts_exit_process total rotation (m : Z) accs :
  forall i w,
    try_accounts_process browse i total rotation (inject_Z m) accs w
    = try_accounts_exit browse i total rotation m accs w.
Proof.
  induction accs as [|acc rest IH]; intros i w; simpl; [done|].
  rewrite Z.div_1_r, try_account_exit_process.
  destruct (try_account_exit browse i acc m (attempt_numbers m) w) as [[evs found] w1].
  destruct found as [[c|]|]; try done. by rewrite IH.
Qed.

Lemma refreshCookies_exit_process file (dir : Dir) w :
  refreshCookies_process browse now JSON_stringify plain_number file dir w
  = refreshCookies_exit browse now JSON_stringify file dir w.
Proof.
  unfold refreshCookies_process, refreshCookies_exit, plain_number.
  destruct (loadAccountsConfig file) as [cfg|]; [|done].
  by rewrite try_accounts_exit_process.
Qed.

End ProcessFacts.

Section ProcessClaims.

(** C1 (amended).  A terminal failure (detection, credential error,
    verification required) is handled as any other failed attempt.  When
    the call returns, and another attempt number is within [maxRetries],
    the next login attempt of the run is made against the same account,
    with the next attempt number: the account is left only when its retry
    budget is used up.  When the call throws, which it does only for an
    account whose [email] is not a string, no attempt follows at all. *)
Theorem terminal_failure_then_next_attempt :
  forall (World : Type) (browse : Value -> Z -> World -> Observation * World)
         (now : World -> Z) (JSON_stringify : list YtDlp.Cookie -> string)
         (ToNumber : Value -> Q)
         (file : ConfigFile) (cfg : Config) (dir : Dir) (w : World)
         (l1 l2 : list Login) (a : Login),
    loadAccountsConfig file = Some cfg ->
    attempts (trace (refreshCookies_process browse now JSON_stringify ToNumber file dir w))
      = (l1 ++ a :: l2)%list ->
    is_terminal (spec_outcome (seen a)) = true ->
    match attemptLogin_exit (account a) (seen a) with
    | Normal _ =>
        within (number a + 1) (ToNumber (maxRetriesPerAccount (rotation cfg))) = true ->
        exists obs l3,
          l2 = {| index := index a; account := account a;
                  number := number a + 1; seen := obs |} :: l3
    | Thrown => l2 = []
    end.
Proof.
  intros World browse now JSON_stringify ToNumber file cfg dir w l1 l2 a Hload Heq Hterm.
  destruct (process_shape browse now JSON_stringify ToNumber file cfg dir w Hload)
    as (evs0 & result0 & w0 & Hold & Hshape).
  apply try_accounts_run in Hold. rewrite Heq in Hshape.
  assert (Hfail : succeeded a = false).
  { unfold succeeded. by rewrite (terminal_returns_null _ Hterm). }
  destruct (thrown a) eqn:Hthrown.
  - (* the call throws *)
    assert (Hexit : attemptLogin_exit (account a) (seen a) = Thrown).
    { unfold thrown in Hthrown. by destruct (attemptLogin_exit _ _). }
    rewrite Hexit.
    destruct Hshape as [(Hall & _)|(pre & b & rest & Hlast & _ & _ & Hpre & _)].
    + rewrite Forall_forall in Hall.
      rewrite (Hall a) in Hthrown; [done|]. apply elem_of_app. right. by left.
    + apply last_or_before in Hlast as [[-> _]|Hin]; [done|].
      rewrite Forall_forall in Hpre. by rewrite (Hpre a Hin) in Hthrown.
  - (* the call returns *)
    rewrite (not_thrown_returns _ Hthrown). intros Hnext%within_floor.
    destruct Hshape as [(_ & Htries & _)|(pre & b & rest & Hlast & Htries & Hb & _)].
    + eapply pool_run_retry; [exact Hold|by symmetry|done|lia].
    + assert (Hsplit : attempts evs0 = (l1 ++ a :: l2 ++ rest)%list).
      { rewrite Htries. change (pre ++ b :: rest)%list with (pre ++ [b] ++ rest)%list.
        rewrite app_assoc, <- Hlast, <- app_assoc. done. }
      destruct (pool_run_retry _ _ _ _ _ _ _ _ Hold Hsplit Hfail ltac:(lia))
        as (obs & l3 & Hl2).
      destruct l2 as [|c l2].
      * (* [a] would be the last attempt, the one that throws *)
        apply app_inj_tail in Hlast as [_ ->]. by rewrite Hb in Hthrown.
      * injection Hl2 as -> _. by exists obs, l2.
Qed.

(** C7.  The login attempts of a process follow the order of the loaded
    accounts, every attempt on an account coming before every attempt on a
    later one and the attempt numbers of an account increasing; the account
    of index [i] is the [i]-th loaded account; and an attempt that the
    specification classes as a success is the last attempt of the process:
    when the call returns, its account and cookies are the outcome and the
    exit code is 0, and when it throws (a failed probe for the logged-in
    page on an account whose [email] is not a string) the process ends in
    the fatal-error handler. *)
Theorem attempts_in_order_until_success :
  forall (World : Type) (browse : Value -> Z -> World -> Observation * World)
         (now : World -> Z) (JSON_stringify : list YtDlp.Cookie -> string)
         (ToNumber : Value -> Q)
         (file : ConfigFile) (dir : Dir) (w : World),
    let p := refreshCookies_process browse now JSON_stringify ToNumber file dir w in
    StronglySorted before (attempts (trace p)) /\
    (forall a, a ∈ attempts (trace p) ->
       exists cfg, loadAccountsConfig file = Some cfg /\
                   accounts cfg !! index a = Some (account a)) /\
    (forall l1 a l2 cookies,
       attempts (trace p) = (l1 ++ a :: l2)%list ->
       spec_outcome (seen a) = Success cookies ->
       l2 = [] /\
       match attemptLogin_exit (account a) (seen a) with
       | Normal _ =>
           exists r, p = Returned r /\ outcome r = Succeeded (account a) cookies /\
                     exitCode r = 0
       | Thrown => exists evs, p = Fatal evs dir
       end).
Proof.
  intros World browse now JSON_stringify ToNumber file dir w p.
  destruct (loadAccountsConfig file) as [cfg|] eqn:Hload.
  - destruct (process_shape browse now JSON_stringify ToNumber file cfg dir w Hload)
      as (evs0 & result0 & w0 & Hold & Hshape).
    apply try_accounts_run in Hold. fold p in Hshape.
    pose proof (pool_run_sorted _ _ _ _ _ Hold) as Hsorted.
    assert (Hsub : exists rest, attempts evs0 = (attempts (trace p) ++ rest)%list).
    { destruct Hshape as [(_ & -> & _)|(pre & b & rest & -> & -> & _)].
      - exists []. by rewrite app_nil_r.
      - exists rest. by rewrite <- app_assoc. }
    destruct Hsub as [rest Hsub]. split; [|split].
    + rewrite Hsub in Hsorted. by apply StronglySorted_app_1_l in Hsorted.
    + intros a Ha. exists cfg. split; [done|].
      by apply (process_members browse now JSON_stringify ToNumber file cfg dir w a Hload Ha).
    + intros l1 a l2 cookies Heq [Hlogin Hacc]%spec_success_returns.
      assert (Hsucc : succeeded a = true) by (unfold succeeded; by rewrite Hlogin).
      assert (Hsplit : attempts evs0 = (l1 ++ a :: l2 ++ rest)%list).
      { by rewrite Hsub, Heq, <- app_assoc. }
      destruct (pool_run_success_last _ _ _ _ _ _ _ _ Hold Hsplit Hsucc)
        as (Hnil & cookies' & Hres & Hlogin').
      apply app_eq_nil in Hnil as [-> ->]. split; [done|].
      assert (cookies' = cookies) as -> by congruence.
      destruct Hshape as [(Hall & _ & Hp)|(pre & b & more & Hlast & _ & Hb & _ & Hp)].
      * rewrite Forall_forall in Hall.
        rewrite (not_thrown_returns a) by (apply Hall; rewrite Heq, elem_of_app; right; by left).
        rewrite Hp, Hres. by eexists.
      * rewrite Heq in Hlast. apply app_inj_tail in Hlast as [_ <-].
        unfold thrown in Hb. destruct (attemptLogin_exit _ _); [done|]. by eexists.
  - assert (trace p = []) as Hev by (unfold p, refreshCookies_process; by rewrite Hload).
    rewrite Hev. simpl. split; [constructor|]. split.
    + intros a Ha. by apply elem_of_nil in Ha.
    + intros [|? ?] ? ? ? ?; done.
Qed.


End ProcessClaims.

(** The statement above on the first attempt of [captcha_process]. *)
Lemma terminal_failure_then_next_attempt_witness :
  loadAccountsConfig (Parsed no_rotation_config)
    = Some {| accounts := [login_of "primary@gmail.com"]; rotation := VUndefined |} /\
  attempts (trace captcha_process)
    = ([] ++ {| index := 0; account := login_of "primary@gmail.com";
                number := 1; seen := captcha_page |}
          :: [ {| index := 0; account := login_of "primary@gmail.com";
                  number := 2; seen := captcha_page |};
               {| index := 0; account := login_of "primary@gmail.com";
                  number := 3; seen := captcha_page |} ])%list /\
  is_terminal (spec_outcome captcha_page) = true /\
  within (1 + 1) (plain_number (maxRetriesPerAccount VUndefined)) = true /\
  exists obs l3,
    [ {| index := 0; account := login_of "primary@gmail.com";
         number := 2; seen := captcha_page |};
      {| index := 0; account := login_of "primary@gmail.com";
         number := 3; seen := captcha_page |} ]
    = {| index := 0; account := login_of "primary@gmail.com";
         number := 1 + 1; seen := obs |} :: l3.
Proof.
  split; [reflexivity|]. split; [reflexivity|]. split; [reflexivity|].
  split; [reflexivity|].
  exact (terminal_failure_then_next_attempt unit (always captcha_page)
           (fun _ => 1700000000000) render plain_number (Parsed no_rotation_config)
           {| accounts := [login_of "primary@gmail.com"]; rotation := VUndefined |}
           {[ "cookies.json" := "[]" ]} tt
           [] _
           {| index := 0; account := login_of "primary@gmail.com";
              number := 1; seen := captcha_page |}
           eq_refl eq_refl eq_refl eq_refl).
Defined.

(** C1, the claim as worded fails: with one account, the default budget and
    a provider that shows a CAPTCHA, the account is attempted three times,
    each attempt ending in a terminal failure. *)
Lemma terminal_failure_is_retried :
  map (fun a => (index a, number a, is_terminal (spec_outcome (seen a))))
      (attempts (trace captcha_process))
  = [(0%nat, 1, true); (0%nat, 2, true); (0%nat, 3, true)].
Proof. reflexivity. Qed.



(** ** More on the process *)

Section ProcessMore.

Context {World : Type}.
Variable browse : Value -> Z -> World -> Observation * World.
Variable now : World -> Z.
Variable JSON_stringify : list YtDlp.Cookie -> string.
Variable ToNumber : Value -> Q.

(** X12.  A process writes the session file only with cookies that its
    last login attempt returned, which carry every essential name with a
    value; it then exits with 0.  In every other case it exits with 1
    without a call of [saveCookies], so that the directory is as it was:
    when the configuration does not load, when the accounts are exhausted,
    and when a login attempt throws. *)
Theorem run_persists_only_a_validated_session :
  forall (file : ConfigFile) (dir : Dir) (w : World),
    let p := refreshCookies_process browse now JSON_stringify ToNumber file dir w in
    match p with
    | Returned r =>
        match outcome r with
        | Succeeded acc cookies =>
            exitCode r = 0 /\
            disk r !! COOKIES_OUTPUT_PATH = Some (JSON_stringify cookies) /\
            (exists pre a, attempts (events r) = (pre ++ [a])%list /\ account a = acc /\
                           attemptLogin_exit acc (seen a) = Normal (Some cookies)) /\
            (forall name, name ∈ ESSENTIAL_COOKIES ->
               exists c, c ∈ cookies /\ YtDlp.name c = name /\ YtDlp.value c <> "")
        | _ => exitCode r = 1 /\ disk r = dir
        end
    | Fatal _ d => exit_status p = 1 /\ d = dir
    end.
Proof.
  intros file dir w p.
  destruct (loadAccountsConfig file) as [cfg|] eqn:Hload.
  - destruct (process_shape browse now JSON_stringify ToNumber file cfg dir w Hload)
      as (evs0 & result0 & w0 & Hold & Hshape).
    apply try_accounts_run in Hold. fold p in Hshape.
    destruct Hshape as [(Hall & Htries & Hp)|(pre & b & rest & _ & _ & _ & _ & Hp)].
    + rewrite Hp. destruct result0 as [[acc cookies]|]; simpl; [|done].
      destruct (pool_run_found _ _ _ _ _ _ Hold) as (pre & a & Hpre & Ha & Hlogin).
      split; [done|]. split; [apply saveCookies_session_file|]. split.
      * exists pre, a. rewrite Htries. split; [done|]. split; [done|].
        rewrite Forall_forall in Hall. rewrite <- Ha, <- Hlogin.
        apply not_thrown_returns, Hall. rewrite Htries, Hpre, elem_of_app. right. by left.
      * by apply (attemptLogin_essential_names _ _ Hlogin).
    + by rewrite Hp.
  - unfold p, refreshCookies_process. by rewrite Hload.
Qed.


Lemma try_account_process_backoffs i acc (x : Q) attempts_left :
  forall w evs found w',
    try_account_process browse i acc x attempts_left w = (evs, found, w') ->
    backoffs evs
    = map (fun a => (index a, number a))
          (List.filter (fun a => negb (thrown a) && negb (taken a) && below (number a) x)
                       (attempts evs)).
Proof.
  induction attempts_left as [|k later IH]; intros w evs found w'; simpl.
  - by intros [= <- <- <-].
  - destruct (browse acc k w) as [obs w1].
    destruct (attemptLogin_exit acc obs) as [cookies|] eqn:Hexit.
    + destruct (accepted cookies) eqn:Hacc.
      * intros [= <- <- <-]. simpl. unfold thrown, taken. simpl. by rewrite Hexit, Hacc.
      * destruct (try_account_process browse i acc x later w1) as [[evs' found'] w2] eqn:Hrec.
        intros [= <- <- <-]. simpl. rewrite attempts_app, backoffs_app.
        replace (attempts (if below k x then [Backoff i k] else []))
          with (@nil Login) by (by destruct (below k x)).
        simpl. unfold thrown at 1, taken at 1. simpl. rewrite Hexit, Hacc. simpl.
        rewrite (IH _ _ _ _ Hrec). by destruct (below k x).
    + intros [= <- <- <-]. simpl. unfold thrown. simpl. by rewrite Hexit.
Qed.

Lemma try_accounts_process_backoffs total rotation (x : Q) accs :
  forall i w evs result w',
    try_accounts_process browse i total rotation x accs w = (evs, result, w') ->
    backoffs evs
    = map (fun a => (index a, number a))
          (List.filter (fun a => negb (thrown a) && negb (taken a) && below (number a) x)
                       (attempts evs)).
Proof.
  induction accs as [|acc rest IH]; intros i w evs result w'; simpl.
  - by intros [= <- <- <-].
  - destruct (try_account_process browse i acc x (attempt_numbers (Qfloor x)) w)
      as [[evs1 found] w1] eqn:Hinner.
    apply try_account_process_backoffs in Hinner.
    destruct found as [[cookies|]|]; try by intros [= <- <- <-].
    destruct (try_accounts_process browse (S i) total rotation x rest w1)
      as [[evs2 result2] w2] eqn:Hrest.
    intros [= <- <- <-]. rewrite !attempts_app, !backoffs_app.
    replace (attempts (if (Z.of_nat i <? Z.of_nat total - 1) && failover rotation
                       then [RotationLogged i] else []))
      with (@nil Login) by (by destruct (_ && _)).
    replace (backoffs (if (Z.of_nat i <? Z.of_nat total - 1) && failover rotation
                       then [RotationLogged i] else []))
      with (@nil (nat * Z)) by (by destruct (_ && _)).
    simpl. rewrite List.filter_app, map_app, Hinner. f_equal. by eapply IH.
Qed.

(** X15.  A process pauses before a retry once for every login attempt
    that returned, was not taken as a success and whose number is below
    [maxRetries], in the order of those attempts, and at no other time:
    never after a success, never after a call that throws, and after the
    last attempt on an account only when [maxRetries] is not a whole
    number. *)
Theorem backoff_after_each_failed_attempt_but_the_last :
  forall (file : ConfigFile) (cfg : Config) (dir : Dir) (w : World),
    loadAccountsConfig file = Some cfg ->
    let p := refreshCookies_process browse now JSON_stringify ToNumber file dir w in
    let maxRetries := ToNumber (maxRetriesPerAccount (rotation cfg)) in
    backoffs (trace p)
    = map (fun a => (index a, number a))
          (List.filter (fun a => negb (thrown a) && negb (taken a)
                                 && below (number a) maxRetries)
                       (attempts (trace p))).
Proof.
  intros file cfg dir w Hload p maxRetries.
  unfold p, refreshCookies_process. rewrite Hload. fold maxRetries.
  destruct (try_accounts_process browse 0 _ _ _ _ w) as [[evs result] w1] eqn:Hrun.
  apply try_accounts_process_backoffs in Hrun.
  by destruct result as [[[? ?]|]|].
Qed.

End ProcessMore.


(** Three accounts, two attempts each: one pause on each of the first two. *)
Lemma backoff_after_each_failed_attempt_but_the_last_witness :
  backoffs (trace three_accounts_process) = [(0%nat, 1); (1%nat, 1)].
Proof.
  rewrite (backoff_after_each_failed_attempt_but_the_last scripted (fun _ => 1700000000000)
             render plain_number
             (Parsed (JObj [("accounts", JArr [login_of "one@gmail.com"; login_of "two@gmail.com";
                                                login_of "three@gmail.com"]);
                            ("rotation", rotation_block (JBool true) (JNum 2))]))
             {| accounts := [login_of "one@gmail.com"; login_of "two@gmail.com";
                             login_of "three@gmail.com"];
                Pool.rotation := rotation_block (JBool true) (JNum 2) |}
             {[ "cookies.json" := "[]" ]}
             [captcha_page; captcha_page; Throws; Throws; logged_in_page] eq_refl).
  vm_compute. reflexivity.
Defined.
